(** * christmas-tree01: ornaments animation and camera orbit control

    A shallow embedding of [src/components/Ornaments.tsx] (the instance
    dataset generator and the per-frame [updateMesh] helper) and of
    [src/components/Experience.tsx] (the hand-driven camera callback).

    Number model.  JavaScript numbers are IEEE-754 doubles; here they are
    read as real numbers, so [Math.sin], [Math.cos], [Math.acos], [Math.PI]
    and [Math.sqrt] are the functions of the Reals library.  Rounding, NaN
    and Infinity are outside this model. *)

From Stdlib Require Import Reals Lra Lia List Bool ZArith.
Import ListNotations.

Open Scope R_scope.

(** ** The parts of three.js the two components call *)

Module Three.

(** [THREE.Vector3]. *)
Record Vector3 : Type := mkVector3 { vx : R; vy : R; vz : R }.

(** [THREE.Euler] (the order field is never changed by the source). *)
Record Euler : Type := mkEuler { ex : R; ey : R; ez : R }.

(** [THREE.Color], kept as its 24-bit hex value. *)
Definition Color : Type := Z.

(** [MathUtils.lerp]-style component step used by [Vector3.lerp]:
    [this.x += (v.x - this.x) * alpha].  There is no clamp on [alpha]. *)
Definition lerp1 (a b alpha : R) : R := a + (b - a) * alpha.

(** [Vector3.prototype.lerp(v, alpha)]. *)
Definition lerp (p v : Vector3) (alpha : R) : Vector3 :=
  mkVector3 (lerp1 (vx p) (vx v) alpha)
            (lerp1 (vy p) (vy v) alpha)
            (lerp1 (vz p) (vz v) alpha).

(** [Vector3.prototype.distanceToSquared(v)]. *)
Definition distanceToSquared (p v : Vector3) : R :=
  let dx := vx p - vx v in
  let dy := vy p - vy v in
  let dz := vz p - vz v in
  dx * dx + dy * dy + dz * dz.

(** [Vector3.prototype.distanceTo(v)]. *)
Definition distanceTo (p v : Vector3) : R := sqrt (distanceToSquared p v).

(** [Vector3.prototype.setScalar(s)]. *)
Definition setScalar (s : R) : Vector3 := mkVector3 s s s.

(** [Vector3.prototype.multiplyScalar(s)]. *)
Definition multiplyScalar (p : Vector3) (s : R) : Vector3 :=
  mkVector3 (vx p * s) (vy p * s) (vz p * s).

(** [MathUtils.clamp(value, min, max)], the clamp the specification
    speaks of: [Math.max(min, Math.min(max, value))]. *)
Definition clamp (value lo hi : R) : R := Rmax lo (Rmin hi value).

End Three.

(** ** [src/components/Ornaments.tsx] *)

Module Ornaments.
Import Three.

(** Modelled from the spec: the [TreeMode] enum of [src/types], which is
    not among the sources; the specification names its two values
    "formed" and "chaos", and the component only tests
    [mode === TreeMode.FORMED]. *)
Inductive TreeMode : Type := CHAOS | FORMED.

Definition TreeMode_eqb (a b : TreeMode) : bool :=
  match a, b with
  | CHAOS, CHAOS | FORMED, FORMED => true
  | _, _ => false
  end.

(** [type OrnamentType = 'ball' | 'gift' | 'light']. *)
Inductive OrnamentType : Type := ball | gift | light.

Definition OrnamentType_eqb (a b : OrnamentType) : bool :=
  match a, b with
  | ball, ball | gift, gift | light, light => true
  | _, _ => false
  end.

(** [interface InstanceData].  [color] is read from [palette] by a computed
    index, so it is [None] where JavaScript would give [undefined]. *)
Record InstanceData : Type := mkInstanceData {
  chaosPos : Vector3;
  targetPos : Vector3;
  type : OrnamentType;
  color : option Color;
  scale : R;
  speed : R;
  rotationOffset : Euler
}.

(** *** The random source

    [Math.random()] is a hidden global stream.  It is made explicit as the
    sequence [rs] of its successive draws together with a cursor: a
    computation reads the stream and returns its value with the advanced
    cursor. *)
Definition Rand (A : Type) : Type := (nat -> R) -> nat -> A * nat.

Definition ret {A : Type} (a : A) : Rand A := fun _ k => (a, k).

Definition bind {A B : Type} (m : Rand A) (f : A -> Rand B) : Rand B :=
  fun rs k => let (a, k') := m rs k in f a rs k'.

(** [Math.random()]. *)
Definition random : Rand R := fun rs k => (rs k, S k).

Notation "x <- m ;; f" := (bind m (fun x => f))
  (at level 61, m at next level, right associativity).

(** [Math.pow(x, y)] on the arguments the generator gives it: a base in
    [0, 1) and a positive exponent (so [Math.pow(0, y)] is [0]). *)
Definition Math_pow (x y : R) : R :=
  if Rlt_dec 0 x then Rpower x y else 0.

(** [Math.floor]. *)
Definition Math_floor (x : R) : Z := Int_part x.

Definition height : R := 11.
Definition maxRadius : R := 4.5.

Definition gold : Color := 0xD4AF37%Z.
Definition red : Color := 0x8B0000%Z.
Definition emerald : Color := 0x004422%Z.
Definition whiteGold : Color := 0xF5E6BF%Z.
Definition lightColor : Color := 0xFFFFAA%Z.

Definition palette : list Color := [gold; red; gold; whiteGold].

(** [palette[i]] for a computed index. *)
Definition paletteAt (i : Z) : option Color :=
  if (i <? 0)%Z then None else nth_error palette (Z.to_nat i).

(** Lines 51-53: start from ['ball'], then two successive overwrites. *)
Definition categorize (rnd : R) : OrnamentType :=
  let type0 := ball in
  let type1 := if Rgt_dec rnd 0.8 then gift else type0 in
  let type2 := if Rgt_dec rnd 0.9 then light else type1 in
  type2.

(** The speed expression of line 90. *)
Definition speedOf (u : R) : R := 0.5 + u * 1.5.

(** One iteration of the [for] loop, lines 50-92.  The draws are taken in
    the order in which JavaScript evaluates them; a ['light'] takes no draw
    for its scale and none for its colour. *)
Definition makeInstance : Rand InstanceData :=
  rnd <- random ;;
  let type := categorize rnd in
  u1 <- random ;;
  let yNorm := Math_pow u1 2.5 in
  let y := yNorm * height + 0.5 in
  let rScale := 1 - yNorm in
  u2 <- random ;;
  let theta := y * 10 + u2 * PI * 2 in
  u3 <- random ;;
  let r := maxRadius * rScale + (u3 * 0.5) in
  let targetPos := mkVector3 (r * cos theta) y (r * sin theta) in
  u4 <- random ;;
  let cR := 15 + u4 * 15 in
  u5 <- random ;;
  let cTheta := u5 * PI * 2 in
  u6 <- random ;;
  let cPhi := acos (2 * u6 - 1) in
  let chaosPos := mkVector3 (cR * sin cPhi * cos cTheta)
                            (cR * sin cPhi * sin cTheta + 5)
                            (cR * cos cPhi) in
  scale <- (if OrnamentType_eqb type light then ret 0.15
            else u <- random ;; ret (0.2 + u * 0.25)) ;;
  color <- (if OrnamentType_eqb type light then ret (Some lightColor)
            else u <- random ;;
                 ret (paletteAt (Math_floor (u * INR (length palette))))) ;;
  u7 <- random ;;
  u8 <- random ;;
  u9 <- random ;;
  ret (mkInstanceData chaosPos targetPos type color scale
         (speedOf u7) (mkEuler (u8 * PI) (u9 * PI) 0)).

(** The three arrays the generator returns. *)
Record Dataset : Type := mkDataset {
  ballsData : list InstanceData;
  giftsData : list InstanceData;
  lightsData : list InstanceData
}.

(** Lines 94-96: [push] onto the array of the instance's type. *)
Definition push (data : InstanceData) (acc : Dataset) : Dataset :=
  match type data with
  | ball => mkDataset (ballsData acc ++ [data]) (giftsData acc) (lightsData acc)
  | gift => mkDataset (ballsData acc) (giftsData acc ++ [data]) (lightsData acc)
  | light => mkDataset (ballsData acc) (giftsData acc) (lightsData acc ++ [data])
  end.

(** The [for (let i = 0; i < count; i++)] loop; [n] is the number of
    iterations still to run (the body does not read [i]). *)
Fixpoint generateLoop (n : nat) (acc : Dataset) : Rand Dataset :=
  match n with
  | O => ret acc
  | S n' => data <- makeInstance ;; generateLoop n' (push data acc)
  end.

(** The body of the [useMemo] of lines 33-100. *)
Definition generate (count : nat) : Rand Dataset :=
  generateLoop count (mkDataset [] [] []).

(** The dataset obtained from a fresh run over the stream [rs]. *)
Definition generateFrom (rs : nat -> R) (count : nat) : Dataset :=
  fst (generate count rs 0%nat).

(** *** The per-frame update, lines 118-203 *)

(** What [Matrix4.decompose] gives for one instance: the [position],
    [rotation] and [scale] of the shared [dummy] object.  The instance
    buffer is kept in this decomposed form: an entry is what [decompose]
    yields for the matrix stored at that index. *)
Record Object3D : Type := mkObject3D {
  position : Vector3;
  rotation : Euler;
  objScale : Vector3
}.

(** [THREE.InstancedMesh]: the [instanceMatrix] buffer, and how many times
    [instanceMatrix.needsUpdate = true] has been assigned (in three.js
    every such assignment bumps the attribute's version). *)
Record InstancedMesh : Type := mkInstancedMesh {
  instanceMatrix : list Object3D;
  dirtyMarks : nat
}.

(** [setMatrixAt(i, m)]: a write into a typed array, which ignores an
    index beyond its length. *)
Fixpoint setMatrixAt (buf : list Object3D) (i : nat) (m : Object3D)
  : list Object3D :=
  match buf, i with
  | [], _ => []
  | _ :: rest, O => m :: rest
  | x :: rest, S i' => x :: setMatrixAt rest i' m
  end.

Section Frame.

(** [Object3D.lookAt(x, y, z)] of three.js: the rotation that turns an
    object at the given position towards the given point. *)
Variable lookAt : Vector3 -> Vector3 -> Euler.

(** What [getMatrixAt] followed by [decompose] leaves in [dummy] for an
    index beyond the buffer. *)
Variable outOfRange : Object3D.

(** [getMatrixAt(i, dummy.matrix)] and [decompose], lines 165-166. *)
Definition getMatrixAt (buf : list Object3D) (i : nat) : Object3D :=
  nth i buf outOfRange.

(** Line 131. *)
Definition destination (isFormed : bool) (d : InstanceData) : Vector3 :=
  if isFormed then targetPos d else chaosPos d.

(** Lines 168-169: [dummy.position] after the [lerp]. *)
Definition lerpedPosition (isFormed : bool) (delta : R) (d : InstanceData)
    (current : Vector3) : Vector3 :=
  let dest := destination isFormed d in
  let step := delta * speed d in
  lerp current dest step.

(** Lines 172-174: the wobble added near the formed position. *)
Definition wobble (isFormed : bool) (time : R) (d : InstanceData)
    (p : Vector3) : Vector3 :=
  if isFormed then
    if Rlt_dec (distanceTo p (targetPos d)) 0.5 then
      mkVector3 (vx p) (vy p + sin (time * 2 + vx (chaosPos d)) * 0.002) (vz p)
    else p
  else p.

(** The body of [data.forEach], lines 131-192, from the decomposed matrix
    read at line 166 to the one written at line 193. *)
Definition updateInstance (isFormed : bool) (time delta : R)
    (d : InstanceData) (dummy : Object3D) : Object3D :=
  let pos := wobble isFormed time d
               (lerpedPosition isFormed delta d (position dummy)) in
  let rot :=
    match type d with
    | gift => mkEuler (ex (rotation dummy) + delta * 0.5)
                      (ey (rotation dummy) + delta * 0.2)
                      (ez (rotation dummy))
    | _ => lookAt pos (mkVector3 0 (vy pos) 0)
    end in
  let scl := setScalar (scale d) in
  let scl :=
    match type d with
    | light => multiplyScalar scl (1 + sin (time * 5 + vy (chaosPos d)) * 0.3)
    | _ => scl
    end in
  mkObject3D pos rot scl.

(** [data.forEach((d, i) => ...)] from index [i] on; the state is the
    buffer and the local [needsUpdate] flag. *)
Fixpoint forEachInstance (isFormed : bool) (time delta : R)
    (data : list InstanceData) (i : nat) (st : list Object3D * bool)
  : list Object3D * bool :=
  match data with
  | [] => st
  | d :: rest =>
      let buf := fst st in
      let dummy := getMatrixAt buf i in
      let buf' := setMatrixAt buf i (updateInstance isFormed time delta d dummy) in
      forEachInstance isFormed time delta rest (S i) (buf', true)
  end.

(** [updateMesh(ref, data)], lines 123-198.  [None] is a [ref.current]
    that is still [null]. *)
Definition updateMesh (isFormed : bool) (time delta : R)
    (ref : option InstancedMesh) (data : list InstanceData)
  : option InstancedMesh :=
  match ref with
  | None => None
  | Some mesh =>
      let needsUpdate := false in
      let (buf, needsUpdate) :=
        forEachInstance isFormed time delta data 0%nat
          (instanceMatrix mesh, needsUpdate) in
      Some (mkInstancedMesh buf
              (if needsUpdate then S (dirtyMarks mesh) else dirtyMarks mesh))
  end.

(** The three mesh handles. *)
Record Refs : Type := mkRefs {
  ballsRef : option InstancedMesh;
  giftsRef : option InstancedMesh;
  lightsRef : option InstancedMesh
}.

(** The [useFrame] callback, lines 118-203. *)
Definition useFrame (mode : TreeMode) (time delta : R) (data : Dataset)
    (refs : Refs) : Refs :=
  let isFormed := TreeMode_eqb mode FORMED in
  mkRefs (updateMesh isFormed time delta (ballsRef refs) (ballsData data))
         (updateMesh isFormed time delta (giftsRef refs) (giftsData data))
         (updateMesh isFormed time delta (lightsRef refs) (lightsData data)).

End Frame.

End Ornaments.

(** ** [src/components/Experience.tsx] *)

Module Experience.
Import Three.

(** The [handPosition] prop. *)
Record HandPosition : Type := mkHandPosition {
  x : R;
  y : R;
  detected : bool
}.

(** What the callback reads from and writes to the [OrbitControls] object
    behind [controlsRef]: the three getters, the camera position
    ([controls.object.position]) and [controls.target]. *)
Record OrbitControls : Type := mkOrbitControls {
  getAzimuthalAngle : R;
  getPolarAngle : R;
  getDistance : R;
  objectPosition : Vector3;
  target : Vector3
}.

(** Line 34. *)
Definition targetAzimuth (hx : R) : R := (hx - 0.5) * PI * 3.

(** Line 38. *)
Definition adjustedY (hy : R) : R := (hy - 0.2) * 2.0.

(** Line 39: [Math.max(0, Math.min(1, adjustedY))]. *)
Definition clampedY (hy : R) : R := Rmax 0 (Rmin 1 (adjustedY hy)).

(** Lines 42-44. *)
Definition minPolar : R := PI / 4.
Definition maxPolar : R := PI / 1.8.
Definition targetPolar (hy : R) : R :=
  minPolar + clampedY hy * (maxPolar - minPolar).

(** Lines 51-53: the difference and its two successive wrap tests. *)
Definition azimuthDiff (targetAz currentAz : R) : R :=
  let d0 := targetAz - currentAz in
  let d1 := if Rgt_dec d0 PI then d0 - PI * 2 else d0 in
  let d2 := if Rlt_dec d1 (- PI) then d1 + PI * 2 else d1 in
  d2.


(** Line 56. *)
Definition lerpSpeed : R := 8.

(** Line 57. *)
Definition newAzimuth (hx delta currentAz : R) : R :=
  currentAz + azimuthDiff (targetAzimuth hx) currentAz * delta * lerpSpeed.

(** Line 58. *)
Definition newPolar (hy delta currentPolar : R) : R :=
  currentPolar + (targetPolar hy - currentPolar) * delta * lerpSpeed.

(** Line 62. *)
Definition targetY : R := 4.

(** Lines 64-66. *)
Definition cameraPosition (radius polar azimuth : R) : Vector3 :=
  mkVector3 (radius * sin polar * sin azimuth)
            (targetY + radius * cos polar)
            (radius * sin polar * cos azimuth).

(** The two angles the callback computes for a detected hand. *)
Definition newAngles (hx hy delta currentAz currentPolar : R) : R * R :=
  (newAzimuth hx delta currentAz, newPolar hy delta currentPolar).

Section Frame.

(** [controls.update()] of the orbit-controls primitive, which is outside
    the sources. *)
Variable update : OrbitControls -> OrbitControls.

(** The [useFrame] callback, lines 25-73.  [None] is a [controlsRef.current]
    that is still [null]. *)
Definition useFrame (controlsRef : option OrbitControls)
    (handPosition : HandPosition) (delta : R) : option OrbitControls :=
  match controlsRef with
  | Some controls =>
      if detected handPosition then
        let currentAzimuth := getAzimuthalAngle controls in
        let currentPolar := getPolarAngle controls in
        let az := newAzimuth (x handPosition) delta currentAzimuth in
        let pol := newPolar (y handPosition) delta currentPolar in
        let radius := getDistance controls in
        Some (update (mkOrbitControls
                        (getAzimuthalAngle controls)
                        (getPolarAngle controls)
                        (getDistance controls)
                        (cameraPosition radius pol az)
                        (mkVector3 0 targetY 0)))
      else Some controls
  | None => None
  end.

End Frame.

End Experience.

(** ** [src/components/Ornaments.tsx]: the initial colours *)

Module InitialColors.
Import Three Ornaments.

(** The [instanceColor] attribute of a mesh: one entry per instance
    ([None] is an entry that still holds the fill the library created it
    with), and how many times [needsUpdate = true] was assigned to it. *)
Record ColorAttribute : Type := mkColorAttribute {
  colors : list (option Color);
  colorMarks : nat
}.

(** The side of a [THREE.InstancedMesh] the layout effect touches: the
    number of instances the mesh was built for, and its [instanceColor],
    which three.js leaves [null] until the first [setColorAt]. *)
Record ColoredMesh : Type := mkColoredMesh {
  capacity : nat;
  instanceColor : option ColorAttribute
}.

(** A statement either completes or throws a [TypeError]. *)
Inductive Outcome (A : Type) : Type :=
| Done (a : A)
| TypeError.
Arguments Done {A} a.
Arguments TypeError {A}.

Definition andThen {A B : Type} (m : Outcome A) (f : A -> Outcome B)
  : Outcome B :=
  match m with
  | Done a => f a
  | TypeError => TypeError
  end.

(** A write into the typed array behind the attribute; an index beyond
    its length is ignored. *)
Fixpoint writeColor (buf : list (option Color)) (i : nat) (c : Color)
  : list (option Color) :=
  match buf, i with
  | [], _ => []
  | _ :: rest, O => Some c :: rest
  | x :: rest, S i' => x :: writeColor rest i' c
  end.

(** [setColorAt(i, color)] of three.js: the attribute is created on first
    use, then [color.toArray] writes entry [i]; that call throws on an
    [undefined] colour. *)
Definition setColorAt (mesh : ColoredMesh) (i : nat) (c : option Color)
  : Outcome ColoredMesh :=
  let attr :=
    match instanceColor mesh with
    | Some a => a
    | None => mkColorAttribute (repeat None (capacity mesh)) 0
    end in
  match c with
  | None => TypeError
  | Some col =>
      Done (mkColoredMesh (capacity mesh)
              (Some (mkColorAttribute (writeColor (colors attr) i col)
                                      (colorMarks attr))))
  end.

(** [data.forEach((d, i) => ref.current!.setColorAt(i, d.color))],
    lines 110-112, from index [i] on. *)
Fixpoint forEachColor (data : list InstanceData) (i : nat)
    (mesh : ColoredMesh) : Outcome ColoredMesh :=
  match data with
  | [] => Done mesh
  | d :: rest =>
      andThen (setColorAt mesh i (color d)) (forEachColor rest (S i))
  end.

(** Lines 109-114 for one group.  Line 113 assigns a property of
    [instanceColor], which throws while that attribute is [null]. *)
Definition colorGroup (ref : option ColoredMesh) (data : list InstanceData)
  : Outcome (option ColoredMesh) :=
  match ref with
  | None => Done None
  | Some mesh =>
      andThen (forEachColor data 0%nat mesh) (fun m =>
        match instanceColor m with
        | None => TypeError
        | Some a =>
            Done (Some (mkColoredMesh (capacity m)
                          (Some (mkColorAttribute (colors a)
                                                  (S (colorMarks a))))))
        end)
  end.

(** The three handles, seen from the colour side. *)
Record ColorRefs : Type := mkColorRefs {
  ballsColors : option ColoredMesh;
  giftsColors : option ColoredMesh;
  lightsColors : option ColoredMesh
}.

(** The [useLayoutEffect] callback, lines 102-116: the three groups in
    the order of the array literal; a throw ends the effect. *)
Definition useLayoutEffect (refs : ColorRefs) (data : Dataset)
  : Outcome ColorRefs :=
  andThen (colorGroup (ballsColors refs) (ballsData data)) (fun b =>
  andThen (colorGroup (giftsColors refs) (giftsData data)) (fun g =>
  andThen (colorGroup (lightsColors refs) (lightsData data)) (fun l =>
  Done (mkColorRefs b g l)))).

End InitialColors.

(** * Vocabulary of the properties

    Predicates and sample data used to state the properties below. *)

Module Spec.
Import Three Ornaments Experience.

(** The position update in the specification's words:
    [current + (destination - current) * clamp(delta * speed, 0, 1)]. *)
Definition clampedApproach (current dest : Vector3) (delta instanceSpeed : R)
  : Vector3 :=
  lerp current dest (clamp (delta * instanceSpeed) 0 1).

(** A ball whose formed position is one unit along the x axis and whose
    speed is 1.5, a value the generator produces (draw 2/3). *)
Definition sampleBall : InstanceData :=
  mkInstanceData (mkVector3 20 5 0) (mkVector3 1 0 0) ball (Some gold)
                 0.3 1.5 (mkEuler 0 0 0).

Definition origin : Vector3 := mkVector3 0 0 0.

(** The number of records held by a dataset. *)
Definition total (ds : Dataset) : nat :=
  (length (ballsData ds) + length (giftsData ds) + length (lightsData ds))%nat.

(** Every record sits in the array of its own type. *)
Definition partitioned (ds : Dataset) : Prop :=
  Forall (fun d => type d = ball) (ballsData ds) /\
  Forall (fun d => type d = gift) (giftsData ds) /\
  Forall (fun d => type d = light) (lightsData ds).

(** Every record of the dataset satisfies [P]. *)
Definition allData (P : InstanceData -> Prop) (ds : Dataset) : Prop :=
  Forall P (ballsData ds) /\ Forall P (giftsData ds) /\ Forall P (lightsData ds).

(** Two streams, equal on their first 24 draws and different afterwards. *)
Definition halves : nat -> R := fun _ => 0.5.
Definition halvesThen (j : nat) : R := if (j <? 24)%nat then 0.5 else 0.95.

(** The clamp of an input coordinate to the documented range [0, 1]. *)
Definition clamp01 (v : R) : R := Rmax 0 (Rmin 1 v).

(** "Clamped or ignored", in the specification's words: the angles
    computed from a sample are those computed from the sample clamped to
    its documented range, or the angles are left as they were. *)
Definition clampsOrIgnores (hx hy delta currentAz currentPolar : R) : Prop :=
  newAngles hx hy delta currentAz currentPolar
  = newAngles (clamp01 hx) (clamp01 hy) (Rmax 0 delta) currentAz currentPolar
  \/ newAngles hx hy delta currentAz currentPolar = (currentAz, currentPolar).



(** The iterations of the generator's loop: the cursor each one starts
    at, and the instance it makes from the draws at that cursor. *)
Fixpoint iterations (n : nat) (rs : nat -> R) (k : nat)
  : list (nat * InstanceData) :=
  match n with
  | O => []
  | S n' =>
      (k, fst (makeInstance rs k))
        :: iterations n' rs (snd (makeInstance rs k))
  end.

(** The instance is of the given type. *)
Definition isType (t : OrnamentType) (d : InstanceData) : bool :=
  OrnamentType_eqb (type d) t.

(** An instance resting on its formed position, and a moment at which
    the wobble of [sampleBall] is at its crest. *)
Definition restingBall : Ornaments.Object3D :=
  Ornaments.mkObject3D (targetPos sampleBall) (mkEuler 0 0 0) (setScalar 1).

Definition crestTime : R := (PI / 2 - 20) / 2.

End Spec.

(** Further vocabulary: draws in the range of [Math.random], runs of
    several frames, and the shapes the generated positions lie in. *)

Module Frames.
Import Three Ornaments.

(** Every draw lies in [0, 1), as [Math.random] promises. *)
Definition unitDraws (rs : nat -> R) : Prop := forall j : nat, 0 <= rs j < 1.

(** One instance through a run of frames, each given by its elapsed time
    and its delta: the transform written in a frame is the one read in the
    next.  Position and scale come back from the matrix as written; the
    rotation comes back as the Euler triple [readBack] that
    [Matrix4.decompose] re-extracts from the written one. *)
Fixpoint runFrames (lookAt : Vector3 -> Vector3 -> Euler)
    (readBack : Euler -> Euler) (isFormed : bool)
    (frames : list (R * R)) (d : InstanceData) (dummy : Object3D)
  : Object3D :=
  match frames with
  | [] => dummy
  | (time, delta) :: rest =>
      let written := updateInstance lookAt isFormed time delta d dummy in
      runFrames lookAt readBack isFormed rest d
        (mkObject3D (position written) (readBack (rotation written))
                    (objScale written))
  end.

(** The centre of the shell the scattered positions are drawn from. *)
Definition shellCentre : Vector3 := mkVector3 0 5 0.

(** The distance of a point from the vertical axis of the tree. *)
Definition axisDistance (p : Vector3) : R := sqrt (vx p * vx p + vz p * vz p).

(** The radius at height [y] of the cone of base [maxRadius] standing on
    [y = 0.5] with its tip at [y = 0.5 + height]. *)
Definition coneRadius (y : R) : R := maxRadius * (1 - (y - 0.5) / height).

(** The colours an instance can be given. *)
Definition allowedColor (d : InstanceData) : Prop :=
  match type d with
  | light => color d = Some lightColor
  | _ => color d = Some gold \/ color d = Some red \/ color d = Some whiteGold
  end.

(** The draws charged to the records of a dataset: twelve for a ball or a
    gift, ten for a light. *)
Definition drawsOf (ds : Dataset) : nat :=
  (12 * (length (ballsData ds) + length (giftsData ds))
   + 10 * length (lightsData ds))%nat.

(** The largest displacement the wobble of lines 172-174 can add in one
    frame: it only acts in formed mode. *)
Definition wobbleSlack (isFormed : bool) : R := if isFormed then 0.002 else 0.

(** The colour entries a mesh starts the layout effect with: those of its
    attribute, or the fresh buffer [setColorAt] creates when there is
    none yet; and the dirty marks it starts with. *)
Definition startColors (mesh : InitialColors.ColoredMesh)
  : list (option Color) :=
  match InitialColors.instanceColor mesh with
  | Some a => InitialColors.colors a
  | None => repeat None (InitialColors.capacity mesh)
  end.

Definition startMarks (mesh : InitialColors.ColoredMesh) : nat :=
  match InitialColors.instanceColor mesh with
  | Some a => InitialColors.colorMarks a
  | None => 0
  end.

(** An attached group that has no instance and no colour attribute yet. *)
Definition emptyFresh (ref : option InitialColors.ColoredMesh)
    (data : list InstanceData) : Prop :=
  match ref with
  | Some mesh => InitialColors.instanceColor mesh = None /\ data = []
  | None => False
  end.

(** Three freshly built meshes, none with a colour attribute yet. *)
Definition freshRefs (nb ng nl : nat) : InitialColors.ColorRefs :=
  InitialColors.mkColorRefs
    (Some (InitialColors.mkColoredMesh nb None))
    (Some (InitialColors.mkColoredMesh ng None))
    (Some (InitialColors.mkColoredMesh nl None)).

(** Every record of the list has a colour. *)
Definition colored (data : list InstanceData) : Prop :=
  Forall (fun d => color d <> None) data.

End Frames.

(** * Properties *)

(** ** Vectors and clamping *)

Module ThreeFacts.
Import Three.

Lemma mult_self_nonneg (a : R) : 0 <= a * a.
Proof. exact (Rle_0_sqr a). Qed.

Lemma distanceToSquared_nonneg (p v : Vector3) : 0 <= distanceToSquared p v.
Proof.
  unfold distanceToSquared; cbv zeta.
  pose proof (Rle_0_sqr (vx p - vx v)) as Hx.
  pose proof (Rle_0_sqr (vy p - vy v)) as Hy.
  pose proof (Rle_0_sqr (vz p - vz v)) as Hz.
  unfold Rsqr in *; lra.
Qed.

Lemma clamp_id (value lo hi : R) :
  lo <= value <= hi -> clamp value lo hi = value.
Proof.
  intros [Hlo Hhi]. unfold clamp.
  rewrite (Rmin_right hi value) by exact Hhi.
  apply Rmax_right; exact Hlo.
Qed.


(** After a lerp the offset to the destination is the old offset scaled
    by [1 - alpha]. *)
Lemma distanceToSquared_lerp (p v : Vector3) (alpha : R) :
  distanceToSquared (lerp p v alpha) v
  = (1 - alpha) * (1 - alpha) * distanceToSquared p v.
Proof. unfold distanceToSquared, lerp, lerp1; cbn; ring. Qed.

Lemma distanceTo_lerp (p v : Vector3) (alpha : R) :
  distanceTo (lerp p v alpha) v = Rabs (1 - alpha) * distanceTo p v.
Proof.
  unfold distanceTo. rewrite distanceToSquared_lerp.
  rewrite sqrt_mult_alt by apply mult_self_nonneg.
  f_equal. change ((1 - alpha) * (1 - alpha)) with (Rsqr (1 - alpha)).
  apply sqrt_Rsqr_abs.
Qed.

Lemma distanceToSquared_from_lerp (p v : Vector3) (alpha : R) :
  distanceToSquared p (lerp p v alpha)
  = alpha * alpha * distanceToSquared p v.
Proof. unfold distanceToSquared, lerp, lerp1; cbn; ring. Qed.

(** A lerp moves the point by [|alpha|] times the distance to the
    destination. *)
Lemma distanceTo_from_lerp (p v : Vector3) (alpha : R) :
  distanceTo p (lerp p v alpha) = Rabs alpha * distanceTo p v.
Proof.
  unfold distanceTo. rewrite distanceToSquared_from_lerp.
  rewrite sqrt_mult_alt by apply mult_self_nonneg.
  f_equal. change (alpha * alpha) with (Rsqr alpha).
  apply sqrt_Rsqr_abs.
Qed.

Lemma distanceTo_nonneg (p v : Vector3) : 0 <= distanceTo p v.
Proof. unfold distanceTo. apply sqrt_pos. Qed.

End ThreeFacts.

(** ** The per-frame position update of [updateMesh] *)

Module UpdateSpec.
Import Three ThreeFacts Ornaments Spec.

Example lerpedPosition_sample :
  lerpedPosition true 0.1 sampleBall origin = mkVector3 0.15 0 0.
Proof.
  unfold lerpedPosition, lerp, lerp1, sampleBall, origin; cbn.
  f_equal; lra.
Qed.

(** C1, refuted as stated: with [delta = 1] and speed 1.5 the code moves
    the instance from the origin to x = 1.5, beyond its destination at
    x = 1, whereas the clamped formula stops at the destination. *)
Lemma C1_unclamped_step_overshoots :
  lerpedPosition true 1 sampleBall origin
    <> clampedApproach origin (destination true sampleBall) 1 (speed sampleBall)
  /\ vx (lerpedPosition true 1 sampleBall origin) = 1.5
  /\ vx (destination true sampleBall) = 1.
Proof.
  split; [| split].
  - intros H. apply (f_equal vx) in H. revert H.
    unfold lerpedPosition, clampedApproach, lerp, lerp1, clamp; cbn.
    unfold Rmax, Rmin. repeat destruct Rle_dec; lra.
  - unfold lerpedPosition, lerp, lerp1; cbn. lra.
  - reflexivity.
Qed.

(** C1, amended: the code applies [Vector3.lerp] with the raw factor
    [delta * speed]; whenever that factor lies in [0, 1] the update is the
    specification's clamped approach and the instance does not travel
    farther than the distance that separated it from its destination. *)
Theorem C1_position_update (isFormed : bool) (delta : R) (d : InstanceData)
    (current : Vector3) :
  let dest := destination isFormed d in
  let new := lerpedPosition isFormed delta d current in
  (vx new = vx current + (vx dest - vx current) * (delta * speed d) /\
   vy new = vy current + (vy dest - vy current) * (delta * speed d) /\
   vz new = vz current + (vz dest - vz current) * (delta * speed d)) /\
  (0 <= delta * speed d <= 1 ->
     new = clampedApproach current dest delta (speed d) /\
     distanceTo current new <= distanceTo current dest).
Proof.
  cbv zeta. split.
  - unfold lerpedPosition, lerp, lerp1; cbn. repeat split.
  - intros Hstep. split.
    + unfold clampedApproach, lerpedPosition.
      rewrite clamp_id by exact Hstep. reflexivity.
    + unfold lerpedPosition. rewrite distanceTo_from_lerp.
      rewrite Rabs_pos_eq by lra.
      pose proof (distanceTo_nonneg current (destination isFormed d)) as Hd.
      nra.
Qed.

Lemma C1_position_update_witness :
  0 <= 0.1 * speed sampleBall <= 1 /\
  lerpedPosition true 0.1 sampleBall origin
    = clampedApproach origin (destination true sampleBall) 0.1 (speed sampleBall).
Proof.
  assert (H : 0 <= 0.1 * speed sampleBall <= 1) by (cbn; lra).
  split; [exact H |].
  exact (proj1 (proj2 (C1_position_update true 0.1 sampleBall origin) H)).
Defined.

(** When [delta * speed] lies in [0, 1], the lerp of lines 168-169 does
    not increase the distance to the active destination. *)
Lemma lerp_distance_non_increasing (isFormed : bool) (delta : R)
    (d : InstanceData) (current : Vector3) :
  0 <= delta * speed d <= 1 ->
  distanceTo (lerpedPosition isFormed delta d current) (destination isFormed d)
  <= distanceTo current (destination isFormed d).
Proof.
  intros Hstep. unfold lerpedPosition. rewrite distanceTo_lerp.
  rewrite Rabs_pos_eq by lra.
  pose proof (distanceTo_nonneg current (destination isFormed d)) as Hd.
  nra.
Qed.

(** *** Dirty marking and skipped groups *)

Section Groups.

Variable lookAt : Vector3 -> Vector3 -> Euler.
Variable outOfRange : Object3D.
Variables (isFormed : bool) (time delta : R).

Let forEach := forEachInstance lookAt outOfRange isFormed time delta.

Lemma setMatrixAt_length (buf : list Object3D) :
  forall (i : nat) (m : Object3D), length (setMatrixAt buf i m) = length buf.
Proof.
  induction buf as [| b buf IH]; intros [| i] m; cbn; try reflexivity.
  rewrite IH. reflexivity.
Qed.

Lemma forEach_flag_set (data : list InstanceData) :
  forall (i : nat) (buf : list Object3D), snd (forEach data i (buf, true)) = true.
Proof.
  induction data as [| d data IH]; intros i buf.
  - reflexivity.
  - apply IH.
Qed.

(** The local flag ends up set exactly when the group has an instance. *)
Lemma forEach_flag (data : list InstanceData) (buf : list Object3D) :
  snd (forEach data 0%nat (buf, false))
  = match data with [] => false | _ :: _ => true end.
Proof.
  destruct data as [| d data].
  - reflexivity.
  - apply forEach_flag_set.
Qed.

Lemma forEach_length (data : list InstanceData) :
  forall (i : nat) (st : list Object3D * bool),
    length (fst (forEach data i st)) = length (fst st).
Proof.
  induction data as [| d data IH]; intros i st.
  - reflexivity.
  - unfold forEach in *. cbn [forEachInstance]. rewrite IH.
    cbn [fst]. apply setMatrixAt_length.
Qed.

Lemma updateMesh_some (mesh : InstancedMesh) (data : list InstanceData) :
  updateMesh lookAt outOfRange isFormed time delta (Some mesh) data
  = Some (mkInstancedMesh
            (fst (forEach data 0%nat (instanceMatrix mesh, false)))
            (dirtyMarks mesh + match data with [] => 0 | _ :: _ => 1 end)).
Proof.
  unfold updateMesh. fold forEach.
  pose proof (forEach_flag data (instanceMatrix mesh)) as Hflag.
  destruct (forEach data 0%nat (instanceMatrix mesh, false)) as [buf flag].
  cbn [fst snd] in *. subst flag.
  destruct data; f_equal; f_equal; lia.
Qed.

End Groups.

(** C9: a group whose handle is present has its buffer marked dirty once
    if it holds at least one instance, whatever their number, and is left
    exactly as it was if it holds none; a group whose handle is missing is
    skipped; and the frame callback treats the three groups one after the
    other, each on its own handle and data. *)
Theorem C9_dirty_once_and_skip
    (lookAt : Vector3 -> Vector3 -> Euler) (outOfRange : Object3D)
    (mode : TreeMode) (time delta : R) (data : Dataset) (refs : Refs)
    (mesh : InstancedMesh) (group : list InstanceData) :
  let isFormed := TreeMode_eqb mode FORMED in
  let run := updateMesh lookAt outOfRange isFormed time delta in
  (exists mesh' : InstancedMesh,
      run (Some mesh) group = Some mesh' /\
      dirtyMarks mesh'
      = (dirtyMarks mesh + match group with [] => 0 | _ :: _ => 1 end)%nat /\
      length (instanceMatrix mesh') = length (instanceMatrix mesh)) /\
  run (Some mesh) [] = Some mesh /\
  run None group = None /\
  useFrame lookAt outOfRange mode time delta data refs
  = mkRefs (run (ballsRef refs) (ballsData data))
           (run (giftsRef refs) (giftsData data))
           (run (lightsRef refs) (lightsData data)).
Proof.
  cbv zeta. repeat split.
  - eexists. split; [apply updateMesh_some |]. cbn [dirtyMarks instanceMatrix].
    split; [reflexivity |].
    rewrite forEach_length. reflexivity.
  - destruct mesh as [buf marks]. reflexivity.
Qed.

(** The wobble of lines 172-174 only acts in formed mode; while the
    instances scatter the position written back is the lerped one. *)
Lemma updateInstance_position_chaos
    (lookAt : Vector3 -> Vector3 -> Euler) (time delta : R)
    (d : InstanceData) (dummy : Object3D) :
  position (updateInstance lookAt false time delta d dummy)
  = lerpedPosition false delta d (position dummy).
Proof. reflexivity. Qed.

End UpdateSpec.

(** ** The instance dataset generator *)

Module GeneratorSpec.
Import Three Ornaments Spec.

(** *** One iteration *)

(** The iteration read off the stream directly: the draws at offsets
    0..11 from the cursor (0..9 for a light). *)
Lemma makeInstance_light (rs : nat -> R) (k : nat) :
  categorize (rs k) = light ->
  makeInstance rs k =
    (let yNorm := Math_pow (rs (1 + k)%nat) 2.5 in
     let y := yNorm * height + 0.5 in
     let theta := y * 10 + rs (2 + k)%nat * PI * 2 in
     let r := maxRadius * (1 - yNorm) + (rs (3 + k)%nat * 0.5) in
     let cR := 15 + rs (4 + k)%nat * 15 in
     let cTheta := rs (5 + k)%nat * PI * 2 in
     let cPhi := acos (2 * rs (6 + k)%nat - 1) in
     mkInstanceData
       (mkVector3 (cR * sin cPhi * cos cTheta) (cR * sin cPhi * sin cTheta + 5)
                  (cR * cos cPhi))
       (mkVector3 (r * cos theta) y (r * sin theta))
       light (Some lightColor) 0.15
       (speedOf (rs (7 + k)%nat))
       (mkEuler (rs (8 + k)%nat * PI) (rs (9 + k)%nat * PI) 0),
     (10 + k)%nat).
Proof.
  intros Hc. unfold makeInstance, bind, random, ret.
  rewrite Hc. reflexivity.
Qed.

Lemma makeInstance_other (rs : nat -> R) (k : nat) :
  categorize (rs k) <> light ->
  makeInstance rs k =
    (let yNorm := Math_pow (rs (1 + k)%nat) 2.5 in
     let y := yNorm * height + 0.5 in
     let theta := y * 10 + rs (2 + k)%nat * PI * 2 in
     let r := maxRadius * (1 - yNorm) + (rs (3 + k)%nat * 0.5) in
     let cR := 15 + rs (4 + k)%nat * 15 in
     let cTheta := rs (5 + k)%nat * PI * 2 in
     let cPhi := acos (2 * rs (6 + k)%nat - 1) in
     mkInstanceData
       (mkVector3 (cR * sin cPhi * cos cTheta) (cR * sin cPhi * sin cTheta + 5)
                  (cR * cos cPhi))
       (mkVector3 (r * cos theta) y (r * sin theta))
       (categorize (rs k))
       (paletteAt (Math_floor (rs (8 + k)%nat * INR (length palette))))
       (0.2 + rs (7 + k)%nat * 0.25)
       (speedOf (rs (9 + k)%nat))
       (mkEuler (rs (10 + k)%nat * PI) (rs (11 + k)%nat * PI) 0),
     (12 + k)%nat).
Proof.
  intros Hc. unfold makeInstance, bind, random, ret.
  destruct (categorize (rs k)); [reflexivity | reflexivity | contradiction].
Qed.

Lemma categorize_light_dec (rnd : R) :
  {categorize rnd = light} + {categorize rnd <> light}.
Proof. destruct (categorize rnd); first [left; reflexivity | right; discriminate]. Qed.

Ltac split_instance rs k :=
  destruct (categorize_light_dec (rs k)) as [Hl | Hl];
  [rewrite (makeInstance_light rs k Hl) | rewrite (makeInstance_other rs k Hl)];
  cbv zeta; cbn [fst snd type speed].

(** The category is decided by the first draw of the iteration alone. *)
Lemma makeInstance_type (rs : nat -> R) (k : nat) :
  type (fst (makeInstance rs k)) = categorize (rs k).
Proof. split_instance rs k; [symmetry; exact Hl | reflexivity]. Qed.

(** The speed is line 90's expression on one of the iteration's draws. *)
Lemma makeInstance_speed (rs : nat -> R) (k : nat) :
  exists j : nat, speed (fst (makeInstance rs k)) = speedOf (rs j).
Proof. split_instance rs k; eexists; reflexivity. Qed.

(** An iteration takes ten or twelve draws. *)
Lemma makeInstance_cursor (rs : nat -> R) (k : nat) :
  (k < snd (makeInstance rs k) <= 12 + k)%nat.
Proof. split_instance rs k; lia. Qed.

(** Two streams that agree on the next twelve draws give the same
    instance and the same cursor. *)
Lemma makeInstance_ext (rs1 rs2 : nat -> R) (k : nat) :
  (forall j : nat, (k <= j < 12 + k)%nat -> rs1 j = rs2 j) ->
  makeInstance rs1 k = makeInstance rs2 k.
Proof.
  intros H.
  assert (E0 : rs1 k = rs2 k) by (apply H; lia).
  destruct (categorize_light_dec (rs1 k)) as [Hl | Hl].
  - rewrite (makeInstance_light rs1 k Hl).
    rewrite E0 in Hl. rewrite (makeInstance_light rs2 k Hl).
    rewrite !(H (_ + k)%nat) by lia. reflexivity.
  - rewrite (makeInstance_other rs1 k Hl).
    rewrite E0 in Hl. rewrite (makeInstance_other rs2 k Hl).
    rewrite E0, !(H (_ + k)%nat) by lia. reflexivity.
Qed.

(** *** The loop *)

Lemma generateLoop_S (n : nat) (acc : Dataset) (rs : nat -> R) (k : nat) :
  generateLoop (S n) acc rs k
  = generateLoop n (push (fst (makeInstance rs k)) acc) rs
      (snd (makeInstance rs k)).
Proof.
  cbn [generateLoop]. unfold bind.
  destruct (makeInstance rs k) as [d k']. reflexivity.
Qed.

Lemma push_total (d : InstanceData) (acc : Dataset) :
  total (push d acc) = S (total acc).
Proof.
  unfold total, push. destruct (type d); cbn [ballsData giftsData lightsData];
    rewrite length_app; cbn [length]; lia.
Qed.

Lemma generateLoop_total (n : nat) :
  forall (acc : Dataset) (rs : nat -> R) (k : nat),
    total (fst (generateLoop n acc rs k)) = (n + total acc)%nat.
Proof.
  induction n as [| n IH]; intros acc rs k.
  - reflexivity.
  - rewrite generateLoop_S, IH, push_total. lia.
Qed.

Lemma Forall_snoc {A : Type} (P : A -> Prop) (l : list A) (a : A) :
  Forall P l -> P a -> Forall P (l ++ [a]).
Proof.
  intros Hl Ha. apply Forall_app.
  split; [exact Hl | constructor; [exact Ha | constructor]].
Qed.

Lemma push_partitioned (d : InstanceData) (acc : Dataset) :
  partitioned acc -> partitioned (push d acc).
Proof.
  intros (Hb & Hg & Hl). unfold partitioned, push.
  destruct (type d) eqn:Ht; cbn [ballsData giftsData lightsData];
    repeat split; try assumption; apply Forall_snoc; assumption.
Qed.

Lemma push_allData (P : InstanceData -> Prop) (d : InstanceData) (acc : Dataset) :
  P d -> allData P acc -> allData P (push d acc).
Proof.
  intros Hd (Hb & Hg & Hl). unfold allData, push.
  destruct (type d); cbn [ballsData giftsData lightsData];
    repeat split; try assumption; apply Forall_snoc; assumption.
Qed.

(** A property of datasets kept by every [push] of a generated instance
    holds of the loop's result. *)
Lemma generateLoop_invariant (I : Dataset -> Prop) (rs : nat -> R) :
  (forall (k : nat) (acc : Dataset),
      I acc -> I (push (fst (makeInstance rs k)) acc)) ->
  forall (n : nat) (acc : Dataset) (k : nat),
    I acc -> I (fst (generateLoop n acc rs k)).
Proof.
  intros Hstep. induction n as [| n IH]; intros acc k Hacc.
  - exact Hacc.
  - rewrite generateLoop_S. apply IH. apply Hstep. exact Hacc.
Qed.

Lemma generateLoop_ext (rs1 rs2 : nat -> R) (n : nat) :
  forall (acc : Dataset) (k : nat),
    (forall j : nat, (k <= j < 12 * n + k)%nat -> rs1 j = rs2 j) ->
    generateLoop n acc rs1 k = generateLoop n acc rs2 k.
Proof.
  induction n as [| n IH]; intros acc k H.
  - reflexivity.
  - rewrite !generateLoop_S.
    assert (E : makeInstance rs1 k = makeInstance rs2 k).
    { apply makeInstance_ext. intros j Hj. apply H. lia. }
    rewrite E. apply IH. intros j Hj. apply H.
    pose proof (makeInstance_cursor rs2 k) as Hc. lia.
Qed.

(** *** The claims about the generator *)

Lemma categorize_thresholds (rnd : R) :
  (categorize rnd = ball <-> rnd <= 0.8) /\
  (categorize rnd = gift <-> 0.8 < rnd <= 0.9) /\
  (categorize rnd = light <-> rnd > 0.9).
Proof.
  unfold categorize.
  destruct (Rgt_dec rnd 0.8) as [H8 | H8], (Rgt_dec rnd 0.9) as [H9 | H9];
    cbv zeta; (split; [| split]); split; intros Hyp;
    try discriminate Hyp; try reflexivity; lra.
Qed.

Example categorize_samples :
  categorize 0.5 = ball /\ categorize 0.8 = ball /\
  categorize 0.85 = gift /\ categorize 0.9 = gift /\
  categorize 0.95 = light.
Proof.
  repeat split.
  - apply (proj1 (categorize_thresholds 0.5)). lra.
  - apply (proj1 (categorize_thresholds 0.8)). lra.
  - apply (proj1 (proj2 (categorize_thresholds 0.85))). lra.
  - apply (proj1 (proj2 (categorize_thresholds 0.9))). lra.
  - apply (proj2 (proj2 (categorize_thresholds 0.95))). lra.
Qed.

(** On the stream [halvesThen] the iteration that starts at draw 24 makes
    a light, which takes ten draws and has the fixed scale and colour. *)
Example makeInstance_halvesThen_24 :
  let (d, k) := makeInstance halvesThen 24%nat in
  type d = light /\ scale d = 0.15 /\ color d = Some lightColor /\
  speed d = 1.925 /\ k = 34%nat.
Proof.
  assert (Hl : categorize (halvesThen 24%nat) = light).
  { apply (proj2 (proj2 (categorize_thresholds _))). unfold halvesThen; cbn. lra. }
  rewrite (makeInstance_light halvesThen 24%nat Hl). cbv zeta.
  repeat split. unfold speedOf, halvesThen; cbn. lra.
Qed.

(** C7: the generator is a function of the requested count and of the
    draws it consumes; two runs over streams that agree on the first
    [12 * count] draws return the same three arrays, record for record. *)
Theorem C7_generator_deterministic (rs1 rs2 : nat -> R) (count : nat) :
  (forall j : nat, (j < 12 * count)%nat -> rs1 j = rs2 j) ->
  generateFrom rs1 count = generateFrom rs2 count.
Proof.
  intros H. unfold generateFrom, generate. f_equal.
  apply generateLoop_ext. intros j Hj. apply H. lia.
Qed.

Lemma C7_generator_deterministic_witness :
  generateFrom halves 2 = generateFrom halvesThen 2.
Proof.
  apply (C7_generator_deterministic halves halvesThen 2).
  intros j Hj. unfold halves, halvesThen.
  destruct (Nat.ltb_spec j 24) as [_ | Hge]; [reflexivity | lia].
Defined.

Lemma iterations_length (rs : nat -> R) (n : nat) :
  forall k : nat, length (iterations n rs k) = n.
Proof.
  induction n as [| n IH]; intros k; cbn [iterations length].
  - reflexivity.
  - rewrite IH. reflexivity.
Qed.

(** Each iteration's instance is the one made from the draws at its
    cursor, and its category is read off the first of them. *)
Lemma iterations_categorized (rs : nat -> R) (n : nat) :
  forall k : nat,
    Forall (fun it => snd it = fst (makeInstance rs (fst it)) /\
                      type (snd it) = categorize (rs (fst it)))
           (iterations n rs k).
Proof.
  induction n as [| n IH]; intros k; cbn [iterations].
  - constructor.
  - constructor; [| apply IH]. cbn [fst snd].
    split; [reflexivity | apply makeInstance_type].
Qed.

(** The loop appends to each array, in order, the instances of that
    array's category among those its iterations make. *)
Lemma generateLoop_arrays (rs : nat -> R) (n : nat) :
  forall (acc : Dataset) (k : nat),
    let ds := fst (generateLoop n acc rs k) in
    let made := map snd (iterations n rs k) in
    ballsData ds = ballsData acc ++ filter (isType ball) made /\
    giftsData ds = giftsData acc ++ filter (isType gift) made /\
    lightsData ds = lightsData acc ++ filter (isType light) made.
Proof.
  induction n as [| n IH]; intros acc k; cbv zeta.
  - cbn. rewrite !app_nil_r. repeat split.
  - rewrite generateLoop_S. cbn [iterations map snd].
    set (d := fst (makeInstance rs k)).
    destruct (IH (push d acc) (snd (makeInstance rs k))) as (Hb & Hg & Hl).
    rewrite Hb, Hg, Hl. cbn [filter].
    change (isType ball d) with (OrnamentType_eqb (type d) ball).
    change (isType gift d) with (OrnamentType_eqb (type d) gift).
    change (isType light d) with (OrnamentType_eqb (type d) light).
    unfold push.
    destruct (type d);
      cbn [OrnamentType_eqb ballsData giftsData lightsData];
      rewrite <- ?app_assoc; repeat split.
Qed.

(** C8: the loop runs [count] iterations; the instance of each iteration
    is categorised by the thresholds 0.8 and 0.9 on the first draw the
    iteration takes ('ball' up to 0.8, 'gift' above 0.8 and up to 0.9,
    'light' above 0.9); the three arrays returned are exactly the balls,
    the gifts and the lights among these instances, in order; so every
    instance is in one array and the three lengths add up to [count]. *)
Theorem C8_category_partition (rs : nat -> R) (count : nat) :
  let made := iterations count rs 0%nat in
  let ds := generateFrom rs count in
  (forall rnd : R,
      (categorize rnd = ball <-> rnd <= 0.8) /\
      (categorize rnd = gift <-> 0.8 < rnd <= 0.9) /\
      (categorize rnd = light <-> rnd > 0.9)) /\
  length made = count /\
  Forall (fun it => snd it = fst (makeInstance rs (fst it)) /\
                    type (snd it) = categorize (rs (fst it))) made /\
  ballsData ds = filter (isType ball) (map snd made) /\
  giftsData ds = filter (isType gift) (map snd made) /\
  lightsData ds = filter (isType light) (map snd made) /\
  partitioned ds /\
  (length (ballsData ds) + length (giftsData ds) + length (lightsData ds))%nat
  = count.
Proof.
  cbv zeta.
  split; [exact categorize_thresholds |].
  split; [apply iterations_length |].
  split; [apply iterations_categorized |].
  destruct (generateLoop_arrays rs count (mkDataset [] [] []) 0) as (Hb & Hg & Hl).
  cbn [ballsData giftsData lightsData app] in Hb, Hg, Hl.
  unfold generateFrom, generate.
  split; [exact Hb |]. split; [exact Hg |]. split; [exact Hl |].
  split.
  - apply (generateLoop_invariant partitioned).
    + intros k acc. apply push_partitioned.
    + repeat split; constructor.
  - pose proof (generateLoop_total count (mkDataset [] [] []) rs 0) as Ht.
    unfold total in Ht. cbn [ballsData giftsData lightsData length] in Ht.
    lia.
Qed.

Lemma speedOf_range (u : R) : 0 <= u < 1 -> 0.5 <= speedOf u < 2.
Proof. unfold speedOf. lra. Qed.

(** C10: with every draw in [0, 1), each generated speed lies in
    [0.5, 2), so a frame delta of at most half a second keeps
    [delta * speed] at or below 1. *)
Theorem C10_speed_range (rs : nat -> R) (count : nat) :
  (forall j : nat, 0 <= rs j < 1) ->
  allData (fun d => 0.5 <= speed d < 2 /\
                    forall delta : R, delta <= 0.5 -> delta * speed d <= 1)
          (generateFrom rs count).
Proof.
  intros Hrs. unfold generateFrom, generate.
  apply (generateLoop_invariant (allData _)).
  - intros k acc. apply push_allData.
    destruct (makeInstance_speed rs k) as [j Hj]. rewrite Hj.
    pose proof (speedOf_range (rs j) (Hrs j)) as Hr.
    split; [exact Hr |].
    intros delta Hd.
    destruct (Rle_dec 0 delta) as [Hpos | Hneg]; nra.
  - repeat split; constructor.
Qed.

Lemma C10_speed_range_witness :
  allData (fun d => 0.5 <= speed d < 2 /\
                    forall delta : R, delta <= 0.5 -> delta * speed d <= 1)
          (generateFrom halves 3).
Proof.
  apply (C10_speed_range halves 3).
  intros j. unfold halves. lra.
Defined.

End GeneratorSpec.

(** ** The camera orbit controller *)

Module ExperienceSpec.
Import Three Experience Spec.

Lemma PI_gt_3 : 3 < PI.
Proof. pose proof PI2_3_2. lra. Qed.

Lemma polar_gap_pos : 0 < maxPolar - minPolar.
Proof. unfold maxPolar, minPolar. pose proof PI_gt_3. lra. Qed.

Lemma clamp01_id (v : R) : 0 <= v <= 1 -> clamp01 v = v.
Proof. intros H. unfold clamp01, Rmax, Rmin. repeat destruct Rle_dec; lra. Qed.

Lemma clampedY_bounds (hy : R) : 0 <= clampedY hy <= 1.
Proof. unfold clampedY, Rmax, Rmin. repeat destruct Rle_dec; lra. Qed.

(** The clamp of line 39 absorbs any [y] outside [0, 1]. *)
Lemma clampedY_clamp01 (hy : R) : clampedY (clamp01 hy) = clampedY hy.
Proof.
  unfold clampedY, clamp01, adjustedY, Rmax, Rmin.
  repeat destruct Rle_dec; lra.
Qed.

Lemma targetPolar_bounds (hy : R) : minPolar <= targetPolar hy <= maxPolar.
Proof.
  unfold targetPolar.
  pose proof (clampedY_bounds hy) as Hc. pose proof polar_gap_pos as Hg.
  split; nra.
Qed.

Lemma azimuthDiff_cases (t c : R) :
  (t - c > PI /\ azimuthDiff t c = t - c - PI * 2 /\ ~ t - c - PI * 2 < - PI)
  \/ (~ t - c > PI /\ t - c < - PI /\ azimuthDiff t c = t - c + PI * 2)
  \/ (~ t - c > PI /\ ~ t - c < - PI /\ azimuthDiff t c = t - c).
Proof.
  unfold azimuthDiff. pose proof PI_gt_3 as Hpi.
  destruct (Rgt_dec (t - c) PI) as [Hgt | Hgt].
  - left. destruct (Rlt_dec (t - c - PI * 2) (- PI)) as [Hlt | Hlt]; [lra |].
    repeat split; [exact Hgt | exact Hlt].
  - right. destruct (Rlt_dec (t - c) (- PI)) as [Hlt | Hlt].
    + left. repeat split; assumption.
    + right. repeat split; assumption.
Qed.


(** *** Out-of-range input *)

(** C3, refuted as stated: a hand at [x = 2] turns the camera by a full
    [2 * PI] in a frame of 0.1 s where the clamped sample would turn it by
    [- 0.4 * PI], and a negative [delta] pushes the polar angle away from
    its target to below [minPolar]; neither input is clamped or ignored. *)
Lemma C3_x_and_delta_flow_through :
  ~ clampsOrIgnores 2 0.5 0.1 0 (PI / 4) /\
  ~ clampsOrIgnores 0.5 0.5 (- 0.1) 0 (PI / 4) /\
  newAzimuth 2 0.1 0 = 2 * PI /\
  newPolar 0.5 (- 0.1) (PI / 4) < minPolar.
Proof.
  pose proof PI_gt_3 as Hpi.
  assert (Haz2 : newAzimuth 2 0.1 0 = 2 * PI).
  { unfold newAzimuth, targetAzimuth, lerpSpeed.
    destruct (azimuthDiff_cases ((2 - 0.5) * PI * 3) 0) as
      [(_ & E & _) | [(N & _ & _) | (N & _ & _)]]; [rewrite E; lra | lra | lra]. }
  assert (Haz1 : newAzimuth (clamp01 2) (Rmax 0 0.1) 0 = - (0.4 * PI)).
  { unfold newAzimuth, targetAzimuth, lerpSpeed.
    replace (clamp01 2) with 1
      by (unfold clamp01, Rmax, Rmin; repeat destruct Rle_dec; lra).
    replace (Rmax 0 0.1) with 0.1
      by (unfold Rmax; destruct Rle_dec; lra).
    destruct (azimuthDiff_cases ((1 - 0.5) * PI * 3) 0) as
      [(_ & E & _) | [(N & _ & _) | (N & _ & _)]]; [rewrite E; lra | lra | lra]. }
  assert (Hcy : clampedY 0.5 = 0.6).
  { unfold clampedY, adjustedY, Rmax, Rmin. repeat destruct Rle_dec; lra. }
  assert (Hpol : newPolar 0.5 (- 0.1) (PI / 4) < minPolar).
  { unfold newPolar, targetPolar, lerpSpeed. rewrite Hcy.
    unfold minPolar, maxPolar. lra. }
  repeat split.
  - intros [H | H]; apply (f_equal fst) in H; cbn [fst newAngles] in H; lra.
  - intros [H | H]; apply (f_equal snd) in H; cbn [snd newAngles] in H.
    + revert H. replace (Rmax 0 (- 0.1)) with 0
        by (unfold Rmax; destruct Rle_dec; lra).
      unfold newPolar at 2. unfold minPolar in Hpol. lra.
    + unfold minPolar in Hpol. lra.
  - exact Haz2.
  - exact Hpol.
Qed.

(** C3, amended: the only input the callback clamps is [y]: whatever [y]
    is, the angles are those computed from [y] clamped to [0, 1] and the
    polar target stays in [minPolar, maxPolar]; so for [x] in [0, 1] and a
    non-negative [delta] the update is the update on the clamped sample. *)
Theorem C3_only_y_is_clamped (hx hy delta currentAz currentPolar : R) :
  newAngles hx hy delta currentAz currentPolar
  = newAngles hx (clamp01 hy) delta currentAz currentPolar /\
  minPolar <= targetPolar hy <= maxPolar /\
  (0 <= hx <= 1 -> 0 <= delta ->
   clampsOrIgnores hx hy delta currentAz currentPolar).
Proof.
  assert (E : newAngles hx hy delta currentAz currentPolar
              = newAngles hx (clamp01 hy) delta currentAz currentPolar).
  { unfold newAngles, newPolar, targetPolar.
    rewrite clampedY_clamp01. reflexivity. }
  split; [exact E |]. split; [apply targetPolar_bounds |].
  intros Hx Hd. left.
  rewrite (clamp01_id hx Hx), (Rmax_right 0 delta Hd). exact E.
Qed.

Lemma C3_only_y_is_clamped_witness :
  0 <= 0.5 <= 1 /\ 0 <= 0.1 /\ clampsOrIgnores 0.5 7 0.1 0 (PI / 4).
Proof.
  assert (Hx : 0 <= 0.5 <= 1) by lra.
  assert (Hd : 0 <= 0.1) by lra.
  split; [exact Hx |]. split; [exact Hd |].
  exact (proj2 (proj2 (C3_only_y_is_clamped 0.5 7 0.1 0 (PI / 4))) Hx Hd).
Defined.

(** *** Azimuth wrap *)

(** C4, refuted as stated: a raw difference of exactly [- PI] (hand at
    [x = 1/6], camera at azimuth 0) is left at [- PI], outside the
    half-open interval, and a raw difference of [4 * PI] is only brought
    down to [2 * PI] by the single subtraction. *)
Lemma C4_single_wrap_misses :
  targetAzimuth (1 / 6) = - PI /\
  ~ (- PI < azimuthDiff (targetAzimuth (1 / 6)) 0 <= PI) /\
  ~ (- PI < azimuthDiff (4 * PI) 0 <= PI).
Proof.
  pose proof PI_gt_3 as Hpi.
  assert (Ht : targetAzimuth (1 / 6) = - PI) by (unfold targetAzimuth; lra).
  split; [exact Ht |]. rewrite Ht. split.
  - destruct (azimuthDiff_cases (- PI) 0) as
      [(N & _ & _) | [(_ & N & _) | (_ & _ & E)]]; [lra | lra | rewrite E; lra].
  - destruct (azimuthDiff_cases (4 * PI) 0) as
      [(_ & E & _) | [(N & _ & _) | (N & _ & _)]]; [rewrite E; lra | lra | lra].
Qed.

(** C4, amended: when the raw difference is within [3 * PI] of zero, as
    it is for a hand [x] in [0, 1] and a current azimuth in [- PI, PI],
    the wrapped difference lies in the closed interval [- PI, PI] and
    differs from the raw one by 0 or by one full turn; for the pair
    [(PI - 0.01, - PI + 0.01)] it is [- 0.02]. *)
Theorem C4_azimuth_short_way (t c : R) :
  (- (3 * PI) <= t - c <= 3 * PI ->
   - PI <= azimuthDiff t c <= PI /\
   (azimuthDiff t c = t - c \/
    azimuthDiff t c = t - c - 2 * PI \/
    azimuthDiff t c = t - c + 2 * PI)) /\
  (forall hx : R, 0 <= hx <= 1 -> - PI <= c <= PI ->
     - PI <= azimuthDiff (targetAzimuth hx) c <= PI) /\
  azimuthDiff (PI - 0.01) (- PI + 0.01) = - 0.02.
Proof.
  pose proof PI_gt_3 as Hpi.
  assert (Hgen : forall t' c' : R, - (3 * PI) <= t' - c' <= 3 * PI ->
            - PI <= azimuthDiff t' c' <= PI /\
            (azimuthDiff t' c' = t' - c' \/
             azimuthDiff t' c' = t' - c' - 2 * PI \/
             azimuthDiff t' c' = t' - c' + 2 * PI)).
  { intros t' c' Hr.
    destruct (azimuthDiff_cases t' c') as
      [(G & E & _) | [(_ & L & E) | (G & L & E)]]; rewrite E;
      (split; [lra |]); [right; left | right; right | left]; lra. }
  split; [apply Hgen |]. split.
  - intros hx Hx Hc. apply Hgen. unfold targetAzimuth. nra.
  - destruct (azimuthDiff_cases (PI - 0.01) (- PI + 0.01)) as
      [(_ & E & _) | [(N & _ & _) | (N & _ & _)]]; [rewrite E; lra | lra | lra].
Qed.

Lemma C4_azimuth_short_way_witness :
  - (3 * PI) <= (PI - 0.01) - (- PI + 0.01) <= 3 * PI /\
  - PI <= azimuthDiff (PI - 0.01) (- PI + 0.01) <= PI.
Proof.
  assert (H : - (3 * PI) <= (PI - 0.01) - (- PI + 0.01) <= 3 * PI)
    by (pose proof PI_gt_3; lra).
  split; [exact H |].
  exact (proj1 (proj1 (C4_azimuth_short_way (PI - 0.01) (- PI + 0.01)) H)).
Defined.

(** *** Polar bounds *)

(** The interpolated angle of line 58 stays in [minPolar, maxPolar] when
    the current angle is there and [delta * lerpSpeed] is in [0, 1]. *)
Lemma newPolar_bounds (hy delta currentPolar : R) :
  0 <= delta * lerpSpeed <= 1 ->
  minPolar <= currentPolar <= maxPolar ->
  minPolar <= newPolar hy delta currentPolar <= maxPolar.
Proof.
  pose proof (targetPolar_bounds hy) as Ht.
  intros Hs Hc. unfold newPolar.
  replace ((targetPolar hy - currentPolar) * delta * lerpSpeed)
    with ((targetPolar hy - currentPolar) * (delta * lerpSpeed)) by ring.
  split; nra.
Qed.




(** *** Undetected hand *)

(** C6: with [detected = false] the callback returns the controls object
    it was given: angles, distance, camera position and look-at target are
    untouched, and [controls.update()] is not called. *)
Theorem C6_undetected_freezes
    (update : OrbitControls -> OrbitControls)
    (controlsRef : option OrbitControls) (hx hy delta : R) :
  useFrame update controlsRef (mkHandPosition hx hy false) delta = controlsRef.
Proof. destruct controlsRef as [controls |]; reflexivity. Qed.

End ExperienceSpec.

(** ** More on the generator: where the instances are and how they look *)

Module GeneratorShape.
Import Three Ornaments Spec Frames ThreeFacts GeneratorSpec.

(** *** The fields of one generated instance *)

Lemma makeInstance_chaosPos (rs : nat -> R) (k : nat) :
  chaosPos (fst (makeInstance rs k))
  = (let cR := 15 + rs (4 + k)%nat * 15 in
     let cTheta := rs (5 + k)%nat * PI * 2 in
     let cPhi := acos (2 * rs (6 + k)%nat - 1) in
     mkVector3 (cR * sin cPhi * cos cTheta) (cR * sin cPhi * sin cTheta + 5)
               (cR * cos cPhi)).
Proof.
  destruct (categorize_light_dec (rs k)) as [Hl | Hl];
    [rewrite (makeInstance_light rs k Hl) | rewrite (makeInstance_other rs k Hl)];
    reflexivity.
Qed.

Lemma makeInstance_targetPos (rs : nat -> R) (k : nat) :
  targetPos (fst (makeInstance rs k))
  = (let yNorm := Math_pow (rs (1 + k)%nat) 2.5 in
     let y := yNorm * height + 0.5 in
     let theta := y * 10 + rs (2 + k)%nat * PI * 2 in
     let r := maxRadius * (1 - yNorm) + (rs (3 + k)%nat * 0.5) in
     mkVector3 (r * cos theta) y (r * sin theta)).
Proof.
  destruct (categorize_light_dec (rs k)) as [Hl | Hl];
    [rewrite (makeInstance_light rs k Hl) | rewrite (makeInstance_other rs k Hl)];
    reflexivity.
Qed.

(** A property of every instance the generator can make holds of every
    record of every dataset. *)
Lemma generated_allData (P : InstanceData -> Prop) (rs : nat -> R) (count : nat) :
  (forall k : nat, P (fst (makeInstance rs k))) ->
  allData P (generateFrom rs count).
Proof.
  intros HP. unfold generateFrom, generate.
  apply (generateLoop_invariant (allData P)).
  - intros k acc. apply push_allData. apply HP.
  - repeat split; constructor.
Qed.

(** [Math.pow(u, 2.5)] keeps a draw in [0, 1). *)
Lemma Math_pow_unit (u : R) : 0 <= u < 1 -> 0 <= Math_pow u 2.5 < 1.
Proof.
  intros [H0 H1]. unfold Math_pow.
  destruct (Rlt_dec 0 u) as [Hpos | Hnpos]; [| lra].
  unfold Rpower. split.
  - left. apply exp_pos.
  - rewrite <- exp_0. apply exp_increasing.
    assert (Hln : ln u < 0) by (rewrite <- ln_1; apply ln_increasing; lra).
    nra.
Qed.

Lemma trig_square (a : R) : sin a * sin a + cos a * cos a = 1.
Proof. exact (sin2_cos2 a). Qed.

(** *** The scattered positions *)

Lemma shell_distance (cR phi theta : R) :
  0 <= cR ->
  distanceTo (mkVector3 (cR * sin phi * cos theta)
                        (cR * sin phi * sin theta + 5)
                        (cR * cos phi)) shellCentre = cR.
Proof.
  intros HcR. unfold distanceTo, distanceToSquared, shellCentre. cbn.
  replace ((cR * sin phi * cos theta - 0) * (cR * sin phi * cos theta - 0)
           + (cR * sin phi * sin theta + 5 - 5) * (cR * sin phi * sin theta + 5 - 5)
           + (cR * cos phi - 0) * (cR * cos phi - 0))
    with (cR * cR).
  - apply sqrt_square. exact HcR.
  - pose proof (trig_square phi) as Hp. pose proof (trig_square theta) as Ht.
    transitivity (cR * cR * (sin phi * sin phi
                             * (sin theta * sin theta + cos theta * cos theta)
                             + cos phi * cos phi)).
    + rewrite Ht. replace (sin phi * sin phi * 1 + cos phi * cos phi) with 1 by lra.
      ring.
    + ring.
Qed.

(** X1: every scattered position lies in the shell of radii 15 and 30 around
    the point (0, 5, 0). *)
Theorem chaos_positions_in_shell (rs : nat -> R) (count : nat) :
  unitDraws rs ->
  allData (fun d => 15 <= distanceTo (chaosPos d) shellCentre < 30)
          (generateFrom rs count).
Proof.
  intros Hrs. apply generated_allData. intros k.
  rewrite makeInstance_chaosPos. cbv zeta.
  pose proof (Hrs (4 + k)%nat) as Hu.
  rewrite shell_distance by lra. lra.
Qed.

Lemma chaos_positions_in_shell_witness :
  allData (fun d => 15 <= distanceTo (chaosPos d) shellCentre < 30)
          (generateFrom halves 3).
Proof.
  apply (chaos_positions_in_shell halves 3).
  intros j. unfold halves. lra.
Defined.

(** *** The formed positions *)

Lemma axisDistance_polar (r y theta : R) :
  0 <= r -> axisDistance (mkVector3 (r * cos theta) y (r * sin theta)) = r.
Proof.
  intros Hr. unfold axisDistance. cbn.
  replace (r * cos theta * (r * cos theta) + r * sin theta * (r * sin theta))
    with (r * r).
  - apply sqrt_square. exact Hr.
  - pose proof (trig_square theta) as Ht.
    transitivity (r * r * (sin theta * sin theta + cos theta * cos theta)).
    + rewrite Ht. ring.
    + ring.
Qed.

(** X2: every formed position has its height in [0.5, 11.5) and sits on or
    outside the cone of the tree, less than 0.5 away from it. *)
Theorem target_positions_on_cone (rs : nat -> R) (count : nat) :
  unitDraws rs ->
  allData (fun d =>
             0.5 <= vy (targetPos d) < 11.5 /\
             coneRadius (vy (targetPos d))
             <= axisDistance (targetPos d)
             < coneRadius (vy (targetPos d)) + 0.5)
          (generateFrom rs count).
Proof.
  intros Hrs. apply generated_allData. intros k.
  rewrite makeInstance_targetPos. cbv zeta.
  pose proof (Math_pow_unit _ (Hrs (1 + k)%nat)) as Hy.
  pose proof (Hrs (3 + k)%nat) as Hu.
  set (yNorm := Math_pow (rs (1 + k)%nat) 2.5) in *.
  rewrite axisDistance_polar by (unfold maxRadius; nra).
  cbn [vy]. unfold coneRadius, height, maxRadius. split; [lra |].
  replace (1 - (yNorm * 11 + 0.5 - 0.5) / 11) with (1 - yNorm) by field.
  lra.
Qed.

Lemma target_positions_on_cone_witness :
  allData (fun d =>
             0.5 <= vy (targetPos d) < 11.5 /\
             coneRadius (vy (targetPos d))
             <= axisDistance (targetPos d)
             < coneRadius (vy (targetPos d)) + 0.5)
          (generateFrom halves 3).
Proof.
  apply (target_positions_on_cone halves 3).
  intros j. unfold halves. lra.
Defined.

(** *** Size, orientation and colour *)

Ltac by_category rs k :=
  destruct (categorize_light_dec (rs k)) as [Hl | Hl];
  [rewrite (makeInstance_light rs k Hl) | rewrite (makeInstance_other rs k Hl)];
  cbv zeta;
  cbn [fst snd type scale color rotationOffset ex ey ez].

(** X3: A light has the fixed scale 0.15, any other ornament a scale in
    [0.2, 0.45); the rotation offsets about x and y lie in [0, PI) and
    there is none about z. *)
Theorem scale_and_rotation_ranges (rs : nat -> R) (count : nat) :
  unitDraws rs ->
  allData (fun d =>
             (type d = light -> scale d = 0.15) /\
             (type d <> light -> 0.2 <= scale d < 0.45) /\
             0 <= ex (rotationOffset d) < PI /\
             0 <= ey (rotationOffset d) < PI /\
             ez (rotationOffset d) = 0)
          (generateFrom rs count).
Proof.
  intros Hrs. apply generated_allData. intros k.
  pose proof PI_RGT_0 as Hpi.
  by_category rs k.
  - pose proof (Hrs (8 + k)%nat) as H8. pose proof (Hrs (9 + k)%nat) as H9.
    split; [reflexivity |]. split; [intros N; contradiction N; reflexivity |].
    repeat split; nra.
  - pose proof (Hrs (7 + k)%nat) as H7.
    pose proof (Hrs (10 + k)%nat) as H10. pose proof (Hrs (11 + k)%nat) as H11.
    split; [intros E; contradiction |]. split; [intros _; lra |].
    repeat split; nra.
Qed.

Lemma scale_and_rotation_ranges_witness :
  allData (fun d =>
             (type d = light -> scale d = 0.15) /\
             (type d <> light -> 0.2 <= scale d < 0.45) /\
             0 <= ex (rotationOffset d) < PI /\
             0 <= ey (rotationOffset d) < PI /\
             ez (rotationOffset d) = 0)
          (generateFrom halves 3).
Proof.
  apply (scale_and_rotation_ranges halves 3).
  intros j. unfold halves. lra.
Defined.

(** [Math.floor(u * 4)] is one of the four palette indices. *)
Lemma palette_index (u : R) :
  0 <= u < 1 ->
  let i := Math_floor (u * INR (length palette)) in
  (i = 0 \/ i = 1 \/ i = 2 \/ i = 3)%Z.
Proof.
  intros Hu. cbv zeta. unfold Math_floor.
  replace (INR (length palette)) with 4 by (cbn; lra).
  destruct (base_Int_part (u * 4)) as [Hle Hgt].
  assert (Hlt4 : (Int_part (u * 4) < 4)%Z) by (apply lt_IZR; lra).
  assert (Hgt1 : (-1 < Int_part (u * 4))%Z) by (apply lt_IZR; lra).
  lia.
Qed.

Lemma paletteAt_index (u : R) :
  0 <= u < 1 ->
  let c := paletteAt (Math_floor (u * INR (length palette))) in
  c = Some gold \/ c = Some red \/ c = Some whiteGold.
Proof.
  intros Hu. cbv zeta.
  destruct (palette_index u Hu) as [E | [E | [E | E]]]; rewrite E; cbn; tauto.
Qed.

Lemma makeInstance_allowedColor (rs : nat -> R) (k : nat) :
  unitDraws rs -> allowedColor (fst (makeInstance rs k)).
Proof.
  intros Hrs. unfold allowedColor. by_category rs k.
  - reflexivity.
  - pose proof (paletteAt_index _ (Hrs (8 + k)%nat)) as Hc. cbv zeta in Hc.
    destruct (categorize (rs k)); [exact Hc | exact Hc | contradiction].
Qed.

Lemma allowedColor_defined (d : InstanceData) :
  allowedColor d -> color d <> None /\ color d <> Some emerald.
Proof.
  unfold allowedColor. intros Hall.
  destruct (type d);
    repeat match goal with
           | H : _ \/ _ |- _ => destruct H as [H | H]
           end; rewrite Hall; split; discriminate.
Qed.

Lemma generated_colored (rs : nat -> R) (count : nat) :
  unitDraws rs ->
  allData (fun d => color d <> None) (generateFrom rs count).
Proof.
  intros Hrs. apply generated_allData. intros k.
  apply allowedColor_defined. apply makeInstance_allowedColor. exact Hrs.
Qed.

(** X4: no instance is left without a colour: a light is given the fixed
    light colour, any other ornament gold, red or white gold; the emerald
    of line 44 is never used. *)
Theorem colors_defined_and_from_palette (rs : nat -> R) (count : nat) :
  unitDraws rs ->
  allData (fun d => allowedColor d /\ color d <> None /\
                    color d <> Some emerald)
          (generateFrom rs count).
Proof.
  intros Hrs. apply generated_allData. intros k.
  pose proof (makeInstance_allowedColor rs k Hrs) as Hall.
  split; [exact Hall | apply allowedColor_defined; exact Hall].
Qed.

Lemma colors_defined_and_from_palette_witness :
  allData (fun d => allowedColor d /\ color d <> None /\
                    color d <> Some emerald)
          (generateFrom halves 3).
Proof.
  apply (colors_defined_and_from_palette halves 3).
  intros j. unfold halves. lra.
Defined.

(** *** The draws a run consumes *)

Lemma makeInstance_draws (rs : nat -> R) (k : nat) :
  snd (makeInstance rs k)
  = match type (fst (makeInstance rs k)) with
    | light => (10 + k)%nat
    | _ => (12 + k)%nat
    end.
Proof.
  by_category rs k; [reflexivity |].
  destruct (categorize (rs k)); [reflexivity | reflexivity | contradiction].
Qed.

Lemma generateLoop_draws (rs : nat -> R) (n : nat) :
  forall (acc : Dataset) (k : nat),
    (snd (generateLoop n acc rs k) + drawsOf acc
     = k + drawsOf (fst (generateLoop n acc rs k)))%nat.
Proof.
  induction n as [| n IH]; intros acc k.
  - reflexivity.
  - rewrite generateLoop_S.
    pose proof (makeInstance_draws rs k) as Hk.
    remember (fst (makeInstance rs k)) as d eqn:Ed.
    remember (snd (makeInstance rs k)) as k' eqn:Ek.
    specialize (IH (push d acc) k').
    assert (Hpush : (drawsOf (push d acc) + k = drawsOf acc + k')%nat).
    { rewrite Hk. unfold drawsOf, push.
      destruct (type d); cbn [ballsData giftsData lightsData];
        rewrite ?length_app; cbn [length]; lia. }
    lia.
Qed.

(** X5: A run takes exactly twelve draws for each ball and gift it returns
    and ten for each light, so between [10 * count] and [12 * count]. *)
Theorem draws_consumed (rs : nat -> R) (count : nat) :
  let ds := fst (generate count rs 0%nat) in
  let used := snd (generate count rs 0%nat) in
  (used = 12 * (length (ballsData ds) + length (giftsData ds))
          + 10 * length (lightsData ds)
   /\ 10 * count <= used <= 12 * count)%nat.
Proof.
  cbv zeta. unfold generate.
  pose proof (generateLoop_draws rs count (mkDataset [] [] []) 0) as Hd.
  pose proof (generateLoop_total count (mkDataset [] [] []) rs 0) as Ht.
  unfold drawsOf, total in *. cbn [ballsData giftsData lightsData length] in *.
  lia.
Qed.

(** *** The way between the two positions *)

(** [distanceTo] is symmetric and obeys the triangle inequality. *)
Lemma distanceTo_sym (p q : Vector3) : distanceTo p q = distanceTo q p.
Proof. unfold distanceTo, distanceToSquared. f_equal. cbv zeta. ring. Qed.

Lemma distanceTo_triangle (p c q : Vector3) :
  distanceTo p q <= distanceTo p c + distanceTo c q.
Proof.
  pose proof (distanceTo_nonneg p c) as HA.
  pose proof (distanceTo_nonneg c q) as HB.
  assert (EA : distanceTo p c * distanceTo p c = distanceToSquared p c)
    by (unfold distanceTo; apply sqrt_sqrt; apply distanceToSquared_nonneg).
  assert (EB : distanceTo c q * distanceTo c q = distanceToSquared c q)
    by (unfold distanceTo; apply sqrt_sqrt; apply distanceToSquared_nonneg).
  set (A := distanceTo p c) in *. set (B := distanceTo c q) in *.
  set (a1 := vx p - vx c). set (a2 := vy p - vy c). set (a3 := vz p - vz c).
  set (b1 := vx c - vx q). set (b2 := vy c - vy q). set (b3 := vz c - vz q).
  assert (Ea : A * A = a1 * a1 + a2 * a2 + a3 * a3) by exact EA.
  assert (Eb : B * B = b1 * b1 + b2 * b2 + b3 * b3) by exact EB.
  assert (Hdot : a1 * b1 + a2 * b2 + a3 * b3 <= A * B).
  { destruct (Rle_dec (a1 * b1 + a2 * b2 + a3 * b3) 0) as [Hneg | Hpos].
    - pose proof (Rmult_le_pos A B HA HB). lra.
    - apply Rsqr_incr_0_var; [| apply Rmult_le_pos; assumption].
      unfold Rsqr.
      replace (A * B * (A * B)) with ((A * A) * (B * B)) by ring.
      rewrite Ea, Eb.
      pose proof (mult_self_nonneg (a1 * b2 - a2 * b1)).
      pose proof (mult_self_nonneg (a1 * b3 - a3 * b1)).
      pose proof (mult_self_nonneg (a2 * b3 - a3 * b2)).
      nra. }
  rewrite <- (sqrt_square (A + B)) by lra.
  unfold distanceTo. apply sqrt_le_1_alt.
  unfold distanceToSquared. cbv zeta.
  replace (vx p - vx q) with (a1 + b1) by (unfold a1, b1; ring).
  replace (vy p - vy q) with (a2 + b2) by (unfold a2, b2; ring).
  replace (vz p - vz q) with (a3 + b3) by (unfold a3, b3; ring).
  nra.
Qed.

Lemma target_near_centre (r y theta : R) :
  0 <= r <= 5 -> 0.5 <= y <= 11.5 ->
  distanceTo (mkVector3 (r * cos theta) y (r * sin theta)) shellCentre < 9.
Proof.
  intros Hr Hy. unfold distanceTo, distanceToSquared, shellCentre.
  cbn [vx vy vz]. cbv zeta.
  rewrite <- (sqrt_square 9) by lra.
  apply sqrt_lt_1_alt. split.
  - pose proof (mult_self_nonneg (r * cos theta - 0)).
    pose proof (mult_self_nonneg (y - 5)).
    pose proof (mult_self_nonneg (r * sin theta - 0)). lra.
  - pose proof (trig_square theta) as Ht.
    replace ((r * cos theta - 0) * (r * cos theta - 0) + (y - 5) * (y - 5)
             + (r * sin theta - 0) * (r * sin theta - 0))
      with (r * r * (sin theta * sin theta + cos theta * cos theta)
            + (y - 5) * (y - 5)) by ring.
    rewrite Ht. nra.
Qed.

(** X6: the scattered position of every instance is more than 6 away from
    its formed position: the formed positions stay within 9 of the point
    (0, 5, 0), the scattered ones at least 15 away from it. *)
Theorem positions_far_apart (rs : nat -> R) (count : nat) :
  unitDraws rs ->
  allData (fun d => distanceTo (targetPos d) shellCentre < 9 /\
                    6 < distanceTo (chaosPos d) (targetPos d))
          (generateFrom rs count).
Proof.
  intros Hrs. apply generated_allData. intros k.
  assert (Hc : 15 <= distanceTo (chaosPos (fst (makeInstance rs k))) shellCentre).
  { rewrite makeInstance_chaosPos. cbv zeta.
    pose proof (Hrs (4 + k)%nat) as Hu.
    rewrite shell_distance by lra. lra. }
  assert (Ht : distanceTo (targetPos (fst (makeInstance rs k))) shellCentre < 9).
  { rewrite makeInstance_targetPos. cbv zeta.
    pose proof (Math_pow_unit _ (Hrs (1 + k)%nat)) as Hy.
    pose proof (Hrs (3 + k)%nat) as Hu.
    apply target_near_centre; unfold maxRadius, height; lra. }
  split; [exact Ht |].
  pose proof (distanceTo_triangle (chaosPos (fst (makeInstance rs k)))
                (targetPos (fst (makeInstance rs k))) shellCentre) as Htri.
  lra.
Qed.

Lemma positions_far_apart_witness :
  allData (fun d => distanceTo (targetPos d) shellCentre < 9 /\
                    6 < distanceTo (chaosPos d) (targetPos d))
          (generateFrom halves 3).
Proof.
  apply (positions_far_apart halves 3).
  intros j. unfold halves. lra.
Defined.

End GeneratorShape.

(** ** More on the per-frame update *)

Module UpdateExtra.
Import Three Ornaments Spec Frames ThreeFacts.

(** *** How far a single lerp may go *)

(** X7: the lerp of lines 168-169 brings the instance no farther from its
    destination as long as [delta * speed] stays in [0, 2]; for a factor
    outside that range an instance that is not yet there ends up strictly
    farther away. *)
Theorem lerp_stable_up_to_two (isFormed : bool) (delta : R)
    (d : InstanceData) (current : Vector3) :
  let dest := destination isFormed d in
  let new := lerpedPosition isFormed delta d current in
  (0 <= delta * speed d <= 2 -> distanceTo new dest <= distanceTo current dest) /\
  (delta * speed d < 0 \/ 2 < delta * speed d ->
   0 < distanceTo current dest ->
   distanceTo current dest < distanceTo new dest).
Proof.
  cbv zeta. unfold lerpedPosition. rewrite distanceTo_lerp.
  pose proof (distanceTo_nonneg current (destination isFormed d)) as Hd.
  split.
  - intros Hs.
    assert (Ha : Rabs (1 - delta * speed d) <= 1) by (apply Rabs_le; lra).
    pose proof (Rabs_pos (1 - delta * speed d)). nra.
  - intros Hs Hpos.
    assert (Ha : 1 < Rabs (1 - delta * speed d)).
    { destruct Hs as [Hs | Hs].
      - rewrite Rabs_pos_eq by lra. lra.
      - rewrite Rabs_left by lra. lra. }
    nra.
Qed.

Lemma lerp_stable_up_to_two_witness :
  distanceTo (lerpedPosition true 1.2 sampleBall origin)
             (destination true sampleBall)
  <= distanceTo origin (destination true sampleBall)
  /\ distanceTo origin (destination true sampleBall)
     < distanceTo (lerpedPosition true 2 sampleBall origin)
                  (destination true sampleBall).
Proof.
  split.
  - apply (proj1 (lerp_stable_up_to_two true 1.2 sampleBall origin)).
    cbn. lra.
  - apply (proj2 (lerp_stable_up_to_two true 2 sampleBall origin)).
    + right. cbn. lra.
    + unfold distanceTo, distanceToSquared. cbn. apply sqrt_lt_R0. lra.
Defined.

(** *** Scale *)

(** X8: the scale written for a ball or a gift is its own scale on the three
    axes; for a light it is that scale times a pulse between 0.7 and
    1.3, the same on the three axes. *)
Theorem written_scale (lookAt : Vector3 -> Vector3 -> Euler)
    (isFormed : bool) (time delta : R) (d : InstanceData) (dummy : Object3D) :
  exists pulse : R,
    objScale (updateInstance lookAt isFormed time delta d dummy)
    = setScalar (scale d * pulse) /\
    0.7 <= pulse <= 1.3 /\
    (type d = light \/ pulse = 1).
Proof.
  unfold updateInstance. cbn [objScale].
  destruct (type d) eqn:Ht.
  - exists 1. split; [unfold setScalar; f_equal; lra |].
    split; [lra | right; reflexivity].
  - exists 1. split; [unfold setScalar; f_equal; lra |].
    split; [lra | right; reflexivity].
  - exists (1 + sin (time * 5 + vy (chaosPos d)) * 0.3).
    pose proof (SIN_bound (time * 5 + vy (chaosPos d))) as Hs.
    split; [reflexivity |]. split; [lra | left; reflexivity].
Qed.

(** *** The buffer, entry by entry *)

Lemma setMatrixAt_nth_error (buf : list Object3D) :
  forall (i j : nat) (m : Object3D),
    nth_error (setMatrixAt buf i m) j
    = if Nat.eqb j i then option_map (fun _ => m) (nth_error buf j)
      else nth_error buf j.
Proof.
  induction buf as [| b buf IH]; intros i j m.
  - destruct i, j; cbn; try reflexivity; destruct (Nat.eqb j i); reflexivity.
  - destruct i as [| i], j as [| j]; cbn; try reflexivity.
    apply IH.
Qed.

Lemma getMatrixAt_nth_error (outOfRange : Object3D) (buf : list Object3D)
    (i : nat) (b : Object3D) :
  nth_error buf i = Some b -> getMatrixAt outOfRange buf i = b.
Proof. intros H. unfold getMatrixAt. apply nth_error_nth. exact H. Qed.

Section Entries.

Variable lookAt : Vector3 -> Vector3 -> Euler.
Variable outOfRange : Object3D.
Variables (isFormed : bool) (time delta : R).

Let update1 := updateInstance lookAt isFormed time delta.

Lemma forEachInstance_nth_error (data : list InstanceData) :
  forall (i0 : nat) (st : list Object3D * bool) (j : nat),
    nth_error
      (fst (forEachInstance lookAt outOfRange isFormed time delta data i0 st)) j
    = match nth_error (fst st) j with
      | None => None
      | Some b =>
          if (j <? i0)%nat then Some b
          else match nth_error data (j - i0) with
               | Some d => Some (update1 d b)
               | None => Some b
               end
      end.
Proof.
  induction data as [| d data IH]; intros i0 st j.
  - cbn [forEachInstance]. destruct (nth_error (fst st) j) as [b |]; [| reflexivity].
    destruct (j <? i0)%nat; [reflexivity |]. destruct (j - i0)%nat; reflexivity.
  - cbn [forEachInstance]. rewrite IH. cbn [fst].
    rewrite setMatrixAt_nth_error.
    destruct (Nat.eqb_spec j i0) as [E | N].
    + subst j. destruct (nth_error (fst st) i0) as [b |] eqn:Hb; [| reflexivity].
      cbn [option_map].
      rewrite (getMatrixAt_nth_error outOfRange _ _ _ Hb).
      replace (i0 <? S i0)%nat with true by (symmetry; apply Nat.ltb_lt; lia).
      replace (i0 <? i0)%nat with false by (symmetry; apply Nat.ltb_ge; lia).
      rewrite Nat.sub_diag. reflexivity.
    + destruct (nth_error (fst st) j) as [b |]; [| reflexivity].
      destruct (Nat.ltb_spec j i0) as [Hlt | Hge].
      * replace (j <? S i0)%nat with true by (symmetry; apply Nat.ltb_lt; lia).
        reflexivity.
      * replace (j <? S i0)%nat with false by (symmetry; apply Nat.ltb_ge; lia).
        replace (j - i0)%nat with (S (j - S i0)) by lia. reflexivity.
Qed.

End Entries.

(** X9: after [updateMesh] every entry of the buffer that has a record of
    its own holds that record's update of the entry's old value, computed
    from nothing else; entries without a record are kept, and records
    beyond the end of the buffer write nothing. *)
Theorem buffer_entry_by_entry
    (lookAt : Vector3 -> Vector3 -> Euler) (outOfRange : Object3D)
    (isFormed : bool) (time delta : R)
    (mesh : InstancedMesh) (data : list InstanceData) :
  exists mesh' : InstancedMesh,
    updateMesh lookAt outOfRange isFormed time delta (Some mesh) data
    = Some mesh' /\
    length (instanceMatrix mesh') = length (instanceMatrix mesh) /\
    forall j : nat,
      nth_error (instanceMatrix mesh') j
      = match nth_error (instanceMatrix mesh) j, nth_error data j with
        | Some b, Some d =>
            Some (updateInstance lookAt isFormed time delta d b)
        | Some b, None => Some b
        | None, _ => None
        end.
Proof.
  eexists. split; [apply UpdateSpec.updateMesh_some |].
  cbn [instanceMatrix]. split.
  - apply UpdateSpec.forEach_length.
  - intros j. rewrite forEachInstance_nth_error. cbn [fst].
    destruct (nth_error (instanceMatrix mesh) j) as [b |]; [| reflexivity].
    cbn. rewrite Nat.sub_0_r. reflexivity.
Qed.

(** *** The wobble *)

(** Moving a point by [w] along y changes its distance to any other point
    by at most [|w|]. *)
Lemma distanceTo_shift_y (p t : Vector3) (w : R) :
  distanceTo (mkVector3 (vx p) (vy p + w) (vz p)) t <= distanceTo p t + Rabs w.
Proof.
  pose proof (distanceTo_nonneg p t) as HD.
  pose proof (Rabs_pos w) as Hw.
  assert (HDD : distanceTo p t * distanceTo p t = distanceToSquared p t).
  { unfold distanceTo. apply sqrt_sqrt. apply distanceToSquared_nonneg. }
  assert (Hb : Rabs (vy p - vy t) <= distanceTo p t).
  { apply Rsqr_incr_0_var; [| exact HD].
    rewrite <- Rsqr_abs. unfold Rsqr. rewrite HDD.
    unfold distanceToSquared. cbv zeta.
    pose proof (mult_self_nonneg (vx p - vx t)).
    pose proof (mult_self_nonneg (vz p - vz t)). lra. }
  assert (Hbw : (vy p - vy t) * w <= distanceTo p t * Rabs w).
  { pose proof (Rle_abs ((vy p - vy t) * w)) as Habs.
    rewrite Rabs_mult in Habs.
    pose proof (Rabs_pos (vy p - vy t)). nra. }
  rewrite <- (sqrt_square (distanceTo p t + Rabs w)) by lra.
  unfold distanceTo at 1. apply sqrt_le_1_alt.
  assert (Hww : Rabs w * Rabs w = w * w).
  { pose proof (Rsqr_abs w) as E. unfold Rsqr in E. symmetry. exact E. }
  unfold distanceToSquared in *. cbn [vx vy vz]. cbv zeta in *. nra.
Qed.

Lemma wobble_distance (isFormed : bool) (time : R) (d : InstanceData)
    (p t : Vector3) :
  distanceTo (wobble isFormed time d p) t <= distanceTo p t + wobbleSlack isFormed.
Proof.
  unfold wobble, wobbleSlack. destruct isFormed; [| lra].
  destruct (Rlt_dec (distanceTo p (targetPos d)) 0.5) as [Hnear | Hfar]; [| lra].
  pose proof (distanceTo_shift_y p t (sin (time * 2 + vx (chaosPos d)) * 0.002)) as Hs.
  pose proof (SIN_bound (time * 2 + vx (chaosPos d))) as Hsin.
  assert (Ha : Rabs (sin (time * 2 + vx (chaosPos d)) * 0.002) <= 0.002)
    by (apply Rabs_le; lra).
  lra.
Qed.

(** X10: the position written back differs from the lerped one only by the
    wobble: never in x or z, by at most 0.002 in y, and not at all while
    scattering or when the lerped position is 0.5 or more away from the
    formed one. *)
Theorem wobble_is_small (lookAt : Vector3 -> Vector3 -> Euler)
    (isFormed : bool) (time delta : R) (d : InstanceData) (dummy : Object3D) :
  let lerped := lerpedPosition isFormed delta d (position dummy) in
  let written := position (updateInstance lookAt isFormed time delta d dummy) in
  vx written = vx lerped /\ vz written = vz lerped /\
  Rabs (vy written - vy lerped) <= 0.002 /\
  (isFormed = true /\ distanceTo lerped (targetPos d) < 0.5 \/ written = lerped).
Proof.
  cbv zeta. unfold updateInstance. cbn [position]. unfold wobble.
  set (lerped := lerpedPosition isFormed delta d (position dummy)).
  assert (H0 : Rabs (vy lerped - vy lerped) <= 0.002).
  { replace (vy lerped - vy lerped) with 0 by ring. rewrite Rabs_R0. lra. }
  destruct isFormed.
  - destruct (Rlt_dec (distanceTo lerped (targetPos d)) 0.5) as [Hnear | Hfar].
    + cbn [vx vy vz]. repeat split; try (left; split; [reflexivity | exact Hnear]).
      pose proof (SIN_bound (time * 2 + vx (chaosPos d))) as Hsin.
      apply Rabs_le. lra.
    + repeat split; try exact H0. right. reflexivity.
  - repeat split; try exact H0. right. reflexivity.
Qed.

(** *** Several frames *)

Lemma updateInstance_progress (lookAt : Vector3 -> Vector3 -> Euler)
    (isFormed : bool) (time delta q : R) (d : InstanceData) (dummy : Object3D) :
  q <= delta * speed d <= 1 ->
  distanceTo (position (updateInstance lookAt isFormed time delta d dummy))
             (destination isFormed d)
  <= (1 - q) * distanceTo (position dummy) (destination isFormed d)
     + wobbleSlack isFormed.
Proof.
  intros Hs. unfold updateInstance. cbn [position].
  eapply Rle_trans; [apply wobble_distance |].
  unfold lerpedPosition. rewrite distanceTo_lerp.
  rewrite Rabs_pos_eq by lra.
  pose proof (distanceTo_nonneg (position dummy) (destination isFormed d)) as Hd.
  nra.
Qed.

Lemma runFrames_progress (lookAt : Vector3 -> Vector3 -> Euler)
    (readBack : Euler -> Euler)
    (isFormed : bool) (q : R) (d : InstanceData) (frames : list (R * R)) :
  0 < q <= 1 ->
  Forall (fun f => q <= snd f * speed d <= 1) frames ->
  forall dummy : Object3D,
    q * (distanceTo (position (runFrames lookAt readBack isFormed frames d dummy))
                    (destination isFormed d)
         - (1 - q) ^ length frames
           * distanceTo (position dummy) (destination isFormed d))
    <= wobbleSlack isFormed * (1 - (1 - q) ^ length frames).
Proof.
  intros Hq Hall. induction Hall as [| [time delta] frames Hf Hall IH]; intros dummy.
  - cbn [runFrames length pow]. lra.
  - cbn [runFrames length]. cbv zeta. cbn [snd] in Hf.
    set (written := updateInstance lookAt isFormed time delta d dummy).
    specialize (IH (mkObject3D (position written) (readBack (rotation written))
                               (objScale written))).
    cbn [position] in IH.
    pose proof (updateInstance_progress lookAt isFormed time delta q d dummy Hf) as Hstep.
    fold written in Hstep.
    assert (HP : 0 <= (1 - q) ^ length frames) by (apply pow_le; lra).
    assert (Hw : 0 <= wobbleSlack isFormed)
      by (unfold wobbleSlack; destruct isFormed; lra).
    pose proof (distanceTo_nonneg (position dummy) (destination isFormed d)) as Hd0.
    set (P := (1 - q) ^ length frames) in *.
    set (d1 := distanceTo (position written) (destination isFormed d)) in *.
    set (dn := distanceTo (position (runFrames _ _ _ _ _ _)) (destination isFormed d))
      in IH |- *.
    set (d0 := distanceTo (position dummy) (destination isFormed d)) in *.
    change ((1 - q) ^ S (length frames)) with ((1 - q) * P).
    assert (Hmul : q * (P * d1) <= q * (P * ((1 - q) * d0 + wobbleSlack isFormed))).
    { apply Rmult_le_compat_l; [lra |]. apply Rmult_le_compat_l; assumption. }
    nra.
Qed.

(** X11: held in one mode through [n] frames whose [delta * speed] all lie
    in [q, 1], an instance ends within [(1 - q) ^ n] times its initial
    distance of the destination while scattering, and within that plus
    [0.002 / q] while forming (the wobble keeps it from settling);
    whatever rotation the matrix gives back between the frames. *)
Theorem run_converges (lookAt : Vector3 -> Vector3 -> Euler)
    (readBack : Euler -> Euler)
    (isFormed : bool) (q : R) (d : InstanceData) (frames : list (R * R))
    (dummy : Object3D) :
  0 < q <= 1 ->
  Forall (fun f => q <= snd f * speed d <= 1) frames ->
  distanceTo (position (runFrames lookAt readBack isFormed frames d dummy))
             (destination isFormed d)
  <= (1 - q) ^ length frames
     * distanceTo (position dummy) (destination isFormed d)
     + wobbleSlack isFormed / q.
Proof.
  intros Hq Hall.
  pose proof (runFrames_progress lookAt readBack isFormed q d frames Hq Hall dummy) as H.
  assert (HP : 0 <= (1 - q) ^ length frames) by (apply pow_le; lra).
  assert (Hw : 0 <= wobbleSlack isFormed)
    by (unfold wobbleSlack; destruct isFormed; lra).
  set (P := (1 - q) ^ length frames) in *.
  set (dn := distanceTo _ (destination isFormed d)) in H |- *.
  set (d0 := distanceTo (position dummy) (destination isFormed d)) in *.
  assert (Hle : q * (dn - P * d0) <= wobbleSlack isFormed) by nra.
  assert (Hdiv : dn - P * d0 <= wobbleSlack isFormed / q).
  { apply (Rmult_le_reg_l q); [lra |]. field_simplify; [| lra]. lra. }
  lra.
Qed.

Lemma run_converges_witness :
  distanceTo (position (runFrames (fun _ _ => mkEuler 0 0 0) (fun e => e) false
                          [(0, 0.1); (0.1, 0.1)] sampleBall
                          (mkObject3D origin (mkEuler 0 0 0) (setScalar 1))))
             (destination false sampleBall)
  <= (1 - 0.1) ^ 2
     * distanceTo origin (destination false sampleBall)
     + wobbleSlack false / 0.1.
Proof.
  apply (run_converges (fun _ _ => mkEuler 0 0 0) (fun e => e) false 0.1 sampleBall
           [(0, 0.1); (0.1, 0.1)]
           (mkObject3D origin (mkEuler 0 0 0) (setScalar 1))).
  - lra.
  - repeat constructor; cbn; lra.
Defined.

(** *** The position a frame leaves behind *)

Lemma distanceTo_self (p : Vector3) : distanceTo p p = 0.
Proof.
  unfold distanceTo, distanceToSquared. cbv zeta.
  replace ((vx p - vx p) * (vx p - vx p) + (vy p - vy p) * (vy p - vy p)
           + (vz p - vz p) * (vz p - vz p)) with 0 by ring.
  apply sqrt_0.
Qed.

(** C2, refuted as stated: a ball resting on its formed position, at
    distance 0 from the active destination, is written back 0.002 above
    it by a frame of 0.1 s that falls on the crest of its wobble. *)
Lemma C2_wobble_leaves_destination :
  0 <= 0.1 * speed sampleBall <= 1 /\
  distanceTo (position restingBall) (destination true sampleBall) = 0 /\
  position (updateInstance (fun _ _ => mkEuler 0 0 0) true crestTime 0.1
              sampleBall restingBall)
  = mkVector3 1 0.002 0 /\
  distanceTo (position restingBall) (destination true sampleBall)
  < distanceTo (position (updateInstance (fun _ _ => mkEuler 0 0 0) true
                            crestTime 0.1 sampleBall restingBall))
               (destination true sampleBall).
Proof.
  assert (Hrest : distanceTo (position restingBall) (destination true sampleBall) = 0)
    by apply distanceTo_self.
  assert (Hlerp : lerpedPosition true 0.1 sampleBall (position restingBall)
                  = targetPos sampleBall).
  { unfold lerpedPosition, lerp, lerp1. cbn. f_equal; lra. }
  assert (Hpos : position (updateInstance (fun _ _ => mkEuler 0 0 0) true
                             crestTime 0.1 sampleBall restingBall)
                 = mkVector3 1 0.002 0).
  { unfold updateInstance. cbn [position]. rewrite Hlerp. unfold wobble.
    destruct (Rlt_dec (distanceTo (targetPos sampleBall) (targetPos sampleBall)) 0.5)
      as [_ | Hfar]; [| rewrite distanceTo_self in Hfar; lra].
    cbn [sampleBall targetPos chaosPos vx vy vz].
    replace (crestTime * 2 + 20) with (PI / 2) by (unfold crestTime; field).
    rewrite sin_PI2. f_equal; lra. }
  split; [cbn; lra |]. split; [exact Hrest |]. split; [exact Hpos |].
  rewrite Hrest, Hpos. unfold distanceTo, distanceToSquared. cbn.
  apply sqrt_lt_R0. lra.
Qed.

(** C2, amended: when [delta * speed] lies in [0, 1], the lerp of lines
    168-169 does not increase the distance to the active destination, and
    the position the frame writes back is no farther from it than the
    position it read plus the 0.002 of the wobble; while the instances
    scatter, or when the lerped position is 0.5 or more away from the
    formed one, the written distance does not increase at all. *)
Theorem C2_distance_within_wobble (lookAt : Vector3 -> Vector3 -> Euler)
    (isFormed : bool) (time delta : R) (d : InstanceData) (dummy : Object3D) :
  0 <= delta * speed d <= 1 ->
  let dest := destination isFormed d in
  let before := distanceTo (position dummy) dest in
  let lerped := lerpedPosition isFormed delta d (position dummy) in
  let written := position (updateInstance lookAt isFormed time delta d dummy) in
  distanceTo lerped dest <= before /\
  distanceTo written dest <= before + wobbleSlack isFormed /\
  (isFormed = false \/ 0.5 <= distanceTo lerped (targetPos d) ->
   distanceTo written dest <= before).
Proof.
  intros Hstep. cbv zeta.
  pose proof (UpdateSpec.lerp_distance_non_increasing isFormed delta d
                (position dummy) Hstep) as Hlerp.
  split; [exact Hlerp |]. split.
  - pose proof (updateInstance_progress lookAt isFormed time delta 0 d dummy Hstep)
      as Hp.
    lra.
  - intros Hquiet. unfold updateInstance. cbn [position]. unfold wobble.
    destruct isFormed; [| exact Hlerp].
    destruct Hquiet as [Hf | Hfar]; [discriminate Hf |].
    destruct (Rlt_dec (distanceTo (lerpedPosition true delta d (position dummy))
                                  (targetPos d)) 0.5) as [Hnear | _];
      [lra | exact Hlerp].
Qed.

Lemma C2_distance_within_wobble_witness :
  distanceTo (position (updateInstance (fun _ _ => mkEuler 0 0 0) true
                          crestTime 0.1 sampleBall restingBall))
             (destination true sampleBall)
  <= distanceTo (position restingBall) (destination true sampleBall)
     + wobbleSlack true.
Proof.
  apply (C2_distance_within_wobble (fun _ _ => mkEuler 0 0 0) true crestTime 0.1
           sampleBall restingBall).
  cbn. lra.
Defined.

End UpdateExtra.

(** ** More on the camera orbit controller *)

Module ExperienceExtra.
Import Three Experience Spec Frames ThreeFacts ExperienceSpec.

Lemma trig_unit (a : R) : sin a * sin a + cos a * cos a = 1.
Proof. exact (sin2_cos2 a). Qed.

(** *** The pose handed to the orbit controls *)

(** X12: for a detected hand the callback hands [controls.update()] a pose
    whose look-at target is (0, 4, 0) and whose camera is at the distance
    the controls reported, whatever the angles: the reconstruction of
    lines 64-66 never changes the orbit radius. *)
Theorem detected_pose_keeps_radius
    (update : OrbitControls -> OrbitControls)
    (controls : OrbitControls) (hx hy delta : R) :
  exists pose : OrbitControls,
    useFrame update (Some controls) (mkHandPosition hx hy true) delta
    = Some (update pose) /\
    target pose = mkVector3 0 4 0 /\
    distanceTo (objectPosition pose) (target pose)
    = Rabs (getDistance controls).
Proof.
  eexists. split; [reflexivity |]. cbn [target objectPosition x y].
  split; [reflexivity |].
  set (r := getDistance controls).
  set (p := newPolar hy delta (getPolarAngle controls)).
  set (a := newAzimuth hx delta (getAzimuthalAngle controls)).
  unfold distanceTo, distanceToSquared, cameraPosition, targetY. cbn [vx vy vz].
  rewrite <- sqrt_Rsqr_abs. f_equal. unfold Rsqr.
  pose proof (trig_unit p) as Hp. pose proof (trig_unit a) as Ha.
  transitivity (r * r * (sin p * sin p * (sin a * sin a + cos a * cos a)
                         + cos p * cos p)).
  - ring.
  - rewrite Ha. replace (sin p * sin p * 1 + cos p * cos p) with 1 by lra. ring.
Qed.

(** *** The polar target *)

(** X13: the polar target is flat at [minPolar] for a hand at or above
    [y = 0.2], flat at [maxPolar] at or below [y = 0.7], linear in between
    (so that [y = 0.45] gives the middle of the cone), and never decreases
    as the hand moves down. *)
Theorem polar_target_profile (hy hy' : R) :
  (hy <= 0.2 -> targetPolar hy = minPolar) /\
  (0.7 <= hy -> targetPolar hy = maxPolar) /\
  (0.2 <= hy <= 0.7 ->
   targetPolar hy = minPolar + (hy - 0.2) * 2 * (maxPolar - minPolar)) /\
  (hy <= hy' -> targetPolar hy <= targetPolar hy').
Proof.
  pose proof polar_gap_pos as Hg.
  assert (Hc : forall v : R,
             (v <= 0.2 -> clampedY v = 0) /\
             (0.7 <= v -> clampedY v = 1) /\
             (0.2 <= v <= 0.7 -> clampedY v = (v - 0.2) * 2)).
  { intros v. unfold clampedY, adjustedY, Rmax, Rmin.
    repeat split; intros Hv; repeat destruct Rle_dec; lra. }
  assert (Hmono : forall a b : R, a <= b -> clampedY a <= clampedY b).
  { intros a b Hab. unfold clampedY, adjustedY, Rmax, Rmin.
    repeat destruct Rle_dec; lra. }
  unfold targetPolar. repeat split.
  - intros Hv. rewrite (proj1 (Hc hy) Hv). lra.
  - intros Hv. rewrite (proj1 (proj2 (Hc hy)) Hv). lra.
  - intros Hv. rewrite (proj2 (proj2 (Hc hy)) Hv). lra.
  - intros Hv. pose proof (Hmono hy hy' Hv). nra.
Qed.

Lemma polar_target_profile_witness :
  targetPolar 0.1 = minPolar /\
  targetPolar 0.9 = maxPolar /\
  targetPolar 0.45 = minPolar + (0.45 - 0.2) * 2 * (maxPolar - minPolar) /\
  targetPolar 0.3 <= targetPolar 0.6.
Proof.
  split; [apply (proj1 (polar_target_profile 0.1 0.1)); lra |].
  split; [apply (proj1 (proj2 (polar_target_profile 0.9 0.9))); lra |].
  split; [apply (proj1 (proj2 (proj2 (polar_target_profile 0.45 0.45)))); lra |].
  apply (proj2 (proj2 (proj2 (polar_target_profile 0.3 0.6)))); lra.
Defined.

(** *** The azimuth wrap *)

(** X14: the wrap of lines 52-53 changes the raw difference by a whole number
    of turns (none, one forward or one back), so the wrapped target is the
    same direction as the raw one, and it never makes the rotation
    longer. *)
Theorem wrap_same_direction_never_longer (t c : R) :
  (exists k : Z, (-1 <= k <= 1)%Z /\
                 azimuthDiff t c = t - c + 2 * PI * IZR k) /\
  sin (c + azimuthDiff t c) = sin t /\
  cos (c + azimuthDiff t c) = cos t /\
  Rabs (azimuthDiff t c) <= Rabs (t - c).
Proof.
  pose proof PI_gt_3 as Hpi.
  destruct (azimuthDiff_cases t c) as
    [(G & E & _) | [(G & L & E) | (G & L & E)]]; rewrite E.
  - split; [exists (-1)%Z; split; [lia | lra] |].
    replace (c + (t - c - PI * 2)) with (t - 2 * PI) by ring.
    rewrite sin_minus, cos_minus, sin_2PI, cos_2PI.
    split; [ring |]. split; [ring |].
    apply Rabs_le. rewrite (Rabs_pos_eq (t - c)) by lra. lra.
  - split; [exists 1%Z; split; [lia | lra] |].
    replace (c + (t - c + PI * 2)) with (t + 2 * PI) by ring.
    rewrite sin_plus, cos_plus, sin_2PI, cos_2PI.
    split; [ring |]. split; [ring |].
    apply Rabs_le. rewrite (Rabs_left (t - c)) by lra. lra.
  - split; [exists 0%Z; split; [lia | lra] |].
    replace (c + (t - c)) with t by ring.
    split; [reflexivity |]. split; [reflexivity |]. lra.
Qed.

(** *** How far one frame turns the camera *)

(** X15: the angles computed at lines 57-58, before [controls.update()]
    is called, are at [|1 - 8 * delta|] times the previous distance from
    their (wrapped) targets: the computed angles close in without
    overshoot for [delta] up to 1/8 s, reach the target exactly at 1/8 s,
    still do not move away up to 1/4 s, and beyond that the polar angle
    computed at line 58 is farther from the polar target than the current
    one was. *)
Theorem angle_error_factor (hx hy delta currentAz currentPolar : R) :
  let diff := azimuthDiff (targetAzimuth hx) currentAz in
  let errAz := (currentAz + diff) - newAzimuth hx delta currentAz in
  let errPolar := targetPolar hy - newPolar hy delta currentPolar in
  errAz = (1 - 8 * delta) * diff /\
  errPolar = (1 - 8 * delta) * (targetPolar hy - currentPolar) /\
  (0 <= delta <= 0.25 ->
   Rabs errAz <= Rabs diff /\
   Rabs errPolar <= Rabs (targetPolar hy - currentPolar)) /\
  (0.25 < delta -> targetPolar hy <> currentPolar ->
   Rabs (targetPolar hy - currentPolar) < Rabs errPolar).
Proof.
  cbv zeta. unfold newAzimuth, newPolar, lerpSpeed.
  set (diff := azimuthDiff (targetAzimuth hx) currentAz).
  set (e := targetPolar hy - currentPolar).
  assert (Eaz : currentAz + diff - (currentAz + diff * delta * 8)
                = (1 - 8 * delta) * diff) by ring.
  assert (Epol : targetPolar hy - (currentPolar + e * delta * 8)
                 = (1 - 8 * delta) * e) by (unfold e; ring).
  rewrite Eaz, Epol. split; [reflexivity |]. split; [reflexivity |].
  rewrite !Rabs_mult. split.
  - intros Hd.
    assert (Hf : Rabs (1 - 8 * delta) <= 1) by (apply Rabs_le; lra).
    pose proof (Rabs_pos (1 - 8 * delta)).
    pose proof (Rabs_pos diff). pose proof (Rabs_pos e).
    split; nra.
  - intros Hd Hne.
    assert (Hf : 1 < Rabs (1 - 8 * delta)) by (rewrite Rabs_left by lra; lra).
    assert (He : 0 < Rabs e) by (apply Rabs_pos_lt; lra).
    nra.
Qed.

Lemma angle_error_factor_witness :
  Rabs (targetPolar 1 - newPolar 1 0.1 minPolar)
  <= Rabs (targetPolar 1 - minPolar) /\
  Rabs (targetPolar 1 - minPolar)
  < Rabs (targetPolar 1 - newPolar 1 0.5 minPolar).
Proof.
  assert (Ht : targetPolar 1 = maxPolar).
  { unfold targetPolar.
    replace (clampedY 1) with 1
      by (unfold clampedY, adjustedY, Rmax, Rmin; repeat destruct Rle_dec; lra).
    lra. }
  split.
  - apply (proj1 (proj2 (proj2 (angle_error_factor 0 1 0.1 0 minPolar)))). lra.
  - apply (proj2 (proj2 (proj2 (angle_error_factor 0 1 0.5 0 minPolar)))).
    + lra.
    + rewrite Ht. pose proof polar_gap_pos. lra.
Defined.

(** *** The camera stays off the vertical axis *)

Lemma axisDistance_camera (radius polar azimuth : R) :
  0 <= radius * sin polar ->
  axisDistance (cameraPosition radius polar azimuth) = radius * sin polar.
Proof.
  intros Hr. unfold axisDistance, cameraPosition. cbn [vx vz].
  pose proof (trig_unit azimuth) as Ha.
  replace (radius * sin polar * sin azimuth * (radius * sin polar * sin azimuth)
           + radius * sin polar * cos azimuth * (radius * sin polar * cos azimuth))
    with ((radius * sin polar) * (radius * sin polar)).
  - apply sqrt_square. exact Hr.
  - transitivity (radius * sin polar * (radius * sin polar)
                  * (sin azimuth * sin azimuth + cos azimuth * cos azimuth)).
    + rewrite Ha. ring.
    + ring.
Qed.

(** X16: when the current polar angle is within [minPolar, maxPolar], the
    orbit radius is positive and [8 * delta] is in [0, 1], the camera
    position of lines 64-66 lies strictly off the vertical axis through
    the tree, at the distance [radius * sin newPolar] from it: the camera
    is never put straight above or below the look-at point. *)
Theorem camera_off_axis (hx hy delta currentAz currentPolar radius : R) :
  0 < radius ->
  0 <= delta * lerpSpeed <= 1 ->
  minPolar <= currentPolar <= maxPolar ->
  let pol := newPolar hy delta currentPolar in
  let az := newAzimuth hx delta currentAz in
  axisDistance (cameraPosition radius pol az) = radius * sin pol /\
  0 < axisDistance (cameraPosition radius pol az).
Proof.
  intros Hr Hs Hc. cbv zeta.
  pose proof PI_gt_3 as Hpi.
  pose proof (targetPolar_bounds hy) as Ht.
  assert (Hp : minPolar <= newPolar hy delta currentPolar <= maxPolar).
  { unfold newPolar.
    replace ((targetPolar hy - currentPolar) * delta * lerpSpeed)
      with ((targetPolar hy - currentPolar) * (delta * lerpSpeed)) by ring.
    split; nra. }
  assert (Hsin : 0 < sin (newPolar hy delta currentPolar)).
  { unfold minPolar, maxPolar in Hp. apply sin_gt_0; lra. }
  assert (Hpos : 0 < radius * sin (newPolar hy delta currentPolar))
    by (apply Rmult_lt_0_compat; assumption).
  rewrite axisDistance_camera by lra. split; [reflexivity | exact Hpos].
Qed.

Lemma camera_off_axis_witness :
  0 < axisDistance (cameraPosition 20 (newPolar 0.45 0.016 minPolar)
                                   (newAzimuth 0.5 0.016 0)).
Proof.
  apply (camera_off_axis 0.5 0.45 0.016 0 minPolar 20).
  - lra.
  - unfold lerpSpeed. lra.
  - pose proof polar_gap_pos. lra.
Defined.

End ExperienceExtra.

(** ** The initial colours *)

Module ColorsSpec.
Import Three Ornaments InitialColors Spec Frames.

Lemma writeColor_length (buf : list (option Color)) :
  forall (i : nat) (c : Color), length (writeColor buf i c) = length buf.
Proof.
  induction buf as [| b buf IH]; intros [| i] c; cbn; try reflexivity.
  rewrite IH. reflexivity.
Qed.

Lemma writeColor_nth_error (buf : list (option Color)) :
  forall (i j : nat) (c : Color),
    nth_error (writeColor buf i c) j
    = if Nat.eqb j i then option_map (fun _ => Some c) (nth_error buf j)
      else nth_error buf j.
Proof.
  induction buf as [| b buf IH]; intros i j c.
  - destruct i, j; cbn; try reflexivity; destruct (Nat.eqb j i); reflexivity.
  - destruct i as [| i], j as [| j]; cbn; try reflexivity.
    apply IH.
Qed.

Lemma attribute_eta (a : ColorAttribute) :
  mkColorAttribute (colors a) (colorMarks a) = a.
Proof. destruct a. reflexivity. Qed.

(** With the attribute in place and every record coloured, the loop of
    lines 110-112 completes and has written each record's colour at its
    index. *)
Lemma forEachColor_attribute (data : list InstanceData) :
  colored data ->
  forall (i0 cap : nat) (attr : ColorAttribute),
  exists buf : list (option Color),
    forEachColor data i0 (mkColoredMesh cap (Some attr))
    = Done (mkColoredMesh cap (Some (mkColorAttribute buf (colorMarks attr)))) /\
    length buf = length (colors attr) /\
    forall j : nat,
      nth_error buf j
      = match nth_error (colors attr) j with
        | None => None
        | Some e =>
            if (j <? i0)%nat then Some e
            else match nth_error data (j - i0) with
                 | Some d => Some (color d)
                 | None => Some e
                 end
        end.
Proof.
  intros Hcol. induction Hcol as [| d data Hd Hcol IH]; intros i0 cap attr.
  - exists (colors attr). cbn [forEachColor]. rewrite attribute_eta.
    split; [reflexivity |]. split; [reflexivity |].
    intros j. destruct (nth_error (colors attr) j) as [e |]; [| reflexivity].
    destruct (j <? i0)%nat; [reflexivity |]. destruct (j - i0)%nat; reflexivity.
  - cbn [forEachColor]. unfold setColorAt. cbn [instanceColor capacity].
    destruct (color d) as [c |] eqn:Ec; [| contradiction Hd; reflexivity].
    cbn [andThen].
    destruct (IH (S i0) cap
                 (mkColorAttribute (writeColor (colors attr) i0 c) (colorMarks attr)))
      as (buf & Hrun & Hlen & Hnth).
    cbn [colors colorMarks] in Hrun, Hlen, Hnth.
    exists buf. split; [exact Hrun |].
    split; [rewrite Hlen; apply writeColor_length |].
    intros j. rewrite Hnth, writeColor_nth_error.
    destruct (Nat.eqb_spec j i0) as [E | N].
    + subst j. destruct (nth_error (colors attr) i0) as [e |]; [| reflexivity].
      cbn [option_map].
      replace (i0 <? S i0)%nat with true by (symmetry; apply Nat.ltb_lt; lia).
      replace (i0 <? i0)%nat with false by (symmetry; apply Nat.ltb_ge; lia).
      rewrite Nat.sub_diag. cbn [nth_error]. rewrite Ec. reflexivity.
    + destruct (nth_error (colors attr) j) as [e |]; [| reflexivity].
      destruct (Nat.ltb_spec j i0) as [Hlt | Hge].
      * replace (j <? S i0)%nat with true by (symmetry; apply Nat.ltb_lt; lia).
        reflexivity.
      * replace (j <? S i0)%nat with false by (symmetry; apply Nat.ltb_ge; lia).
        replace (j - i0)%nat with (S (j - S i0)) by lia. reflexivity.
Qed.

(** A loop over at least one record behaves as if the attribute had been
    there from the start, holding the fresh buffer. *)
Lemma forEachColor_start (d : InstanceData) (data : list InstanceData)
    (i0 : nat) (mesh : ColoredMesh) :
  forEachColor (d :: data) i0 mesh
  = forEachColor (d :: data) i0
      (mkColoredMesh (capacity mesh)
         (Some (mkColorAttribute (startColors mesh) (startMarks mesh)))).
Proof.
  cbn [forEachColor]. unfold setColorAt, startColors, startMarks.
  cbn [instanceColor capacity colors colorMarks].
  destruct (instanceColor mesh) as [a |]; reflexivity.
Qed.

(** The loop of lines 110-112 over coloured records, on a mesh that has a
    record to write or an attribute already. *)
Lemma forEachColor_written (mesh : ColoredMesh) (data : list InstanceData) :
  colored data ->
  data <> [] \/ instanceColor mesh <> None ->
  exists buf : list (option Color),
    forEachColor data 0 mesh
    = Done (mkColoredMesh (capacity mesh)
              (Some (mkColorAttribute buf (startMarks mesh)))) /\
    length buf = length (startColors mesh) /\
    forall j : nat,
      nth_error buf j
      = match nth_error (startColors mesh) j, nth_error data j with
        | Some e, Some d => Some (color d)
        | Some e, None => Some e
        | None, _ => None
        end.
Proof.
  intros Hcol Hne.
  assert (Hgen : forEachColor data 0 mesh
                 = forEachColor data 0
                     (mkColoredMesh (capacity mesh)
                        (Some (mkColorAttribute (startColors mesh)
                                                (startMarks mesh))))).
  { destruct data as [| d data].
    - destruct Hne as [N | N]; [contradiction N; reflexivity |].
      destruct mesh as [cap [a |]]; [| contradiction N; reflexivity].
      unfold startColors, startMarks. cbn [instanceColor capacity].
      rewrite attribute_eta. reflexivity.
    - apply forEachColor_start. }
  rewrite Hgen.
  destruct (forEachColor_attribute data Hcol 0 (capacity mesh)
              (mkColorAttribute (startColors mesh) (startMarks mesh)))
    as (buf & Hrun & Hlen & Hnth).
  cbn [colors colorMarks] in Hrun, Hlen, Hnth.
  exists buf. split; [exact Hrun |]. split; [exact Hlen |].
  intros j. rewrite Hnth.
  destruct (nth_error (startColors mesh) j) as [e |]; [| reflexivity].
  cbn. rewrite Nat.sub_0_r. reflexivity.
Qed.

(** With every record coloured, a group fails exactly when it is attached,
    empty and without a colour attribute. *)
Lemma colorGroup_fails_iff (ref : option ColoredMesh) (data : list InstanceData) :
  colored data ->
  (colorGroup ref data = TypeError <-> emptyFresh ref data).
Proof.
  intros Hcol. destruct ref as [mesh |]; cbn [emptyFresh].
  - destruct data as [| d data].
    + unfold colorGroup. cbn [forEachColor andThen].
      destruct (instanceColor mesh) as [a |]; split.
      * discriminate.
      * intros [N _]. discriminate N.
      * intros _. split; reflexivity.
      * reflexivity.
    + destruct (forEachColor_written mesh (d :: data) Hcol) as (buf & Hrun & _).
      { left. discriminate. }
      unfold colorGroup. rewrite Hrun. cbn [andThen instanceColor].
      split; [discriminate | intros [_ N]; discriminate N].
  - cbn. split; [discriminate | contradiction].
Qed.

(** X17: for a group whose handle is attached, whose records all have a
    colour, and which has a record or already has a colour attribute, the
    layout effect completes: every entry with a record of its own holds
    that record's colour, the other entries are kept, and the attribute
    is marked dirty once. *)
Theorem initial_colors_written (mesh : ColoredMesh) (data : list InstanceData) :
  colored data ->
  data <> [] \/ instanceColor mesh <> None ->
  exists attr : ColorAttribute,
    colorGroup (Some mesh) data
    = Done (Some (mkColoredMesh (capacity mesh) (Some attr))) /\
    colorMarks attr = S (startMarks mesh) /\
    length (colors attr) = length (startColors mesh) /\
    forall j : nat,
      nth_error (colors attr) j
      = match nth_error (startColors mesh) j, nth_error data j with
        | Some e, Some d => Some (color d)
        | Some e, None => Some e
        | None, _ => None
        end.
Proof.
  intros Hcol Hne.
  destruct (forEachColor_written mesh data Hcol Hne) as (buf & Hrun & Hlen & Hnth).
  exists (mkColorAttribute buf (S (startMarks mesh))).
  unfold colorGroup. rewrite Hrun.
  cbn [andThen instanceColor capacity colors colorMarks].
  repeat split; assumption.
Qed.

Lemma initial_colors_written_witness :
  exists attr : ColorAttribute,
    colorGroup (Some (mkColoredMesh 2 None)) [sampleBall; sampleBall]
    = Done (Some (mkColoredMesh 2 (Some attr))) /\
    colorMarks attr = 1%nat /\
    nth_error (colors attr) 1 = Some (Some gold).
Proof.
  destruct (initial_colors_written (mkColoredMesh 2 None) [sampleBall; sampleBall])
    as (attr & Hrun & Hmarks & _ & Hnth).
  - repeat constructor; discriminate.
  - left. discriminate.
  - exists attr. split; [exact Hrun |]. split; [exact Hmarks |].
    rewrite Hnth. reflexivity.
Defined.

(** The effect throws exactly when one of its three groups does. *)
Lemma useLayoutEffect_fails_groups (refs : ColorRefs) (data : Dataset) :
  useLayoutEffect refs data = TypeError <->
  colorGroup (ballsColors refs) (ballsData data) = TypeError \/
  colorGroup (giftsColors refs) (giftsData data) = TypeError \/
  colorGroup (lightsColors refs) (lightsData data) = TypeError.
Proof.
  unfold useLayoutEffect.
  destruct (colorGroup (ballsColors refs) (ballsData data)) as [b |];
    destruct (colorGroup (giftsColors refs) (giftsData data)) as [g |];
    destruct (colorGroup (lightsColors refs) (lightsData data)) as [l |];
    cbn [andThen]; split; intros H; try reflexivity; try tauto;
    try discriminate H;
    destruct H as [H | [H | H]]; discriminate H.
Qed.

(** X18: with every record coloured, the layout effect throws exactly when
    some attached group has no record and no colour attribute yet: line
    113 then assigns a property of a [null] attribute.  The groups after
    the one that throws are not coloured. *)
Theorem layout_effect_fails_iff (refs : ColorRefs) (data : Dataset) :
  allData (fun d => color d <> None) data ->
  (useLayoutEffect refs data = TypeError <->
   emptyFresh (ballsColors refs) (ballsData data) \/
   emptyFresh (giftsColors refs) (giftsData data) \/
   emptyFresh (lightsColors refs) (lightsData data)).
Proof.
  intros (Hb & Hg & Hl).
  rewrite useLayoutEffect_fails_groups.
  rewrite (colorGroup_fails_iff (ballsColors refs) (ballsData data) Hb).
  rewrite (colorGroup_fails_iff (giftsColors refs) (giftsData data) Hg).
  rewrite (colorGroup_fails_iff (lightsColors refs) (lightsData data) Hl).
  reflexivity.
Qed.

Lemma layout_effect_fails_iff_witness :
  useLayoutEffect (freshRefs 1 0 0) (mkDataset [sampleBall] [] []) = TypeError.
Proof.
  apply (layout_effect_fails_iff (freshRefs 1 0 0) (mkDataset [sampleBall] [] [])).
  - repeat split; repeat constructor; discriminate.
  - right. left. split; reflexivity.
Defined.

(** X19: on freshly built meshes the layout effect over a generated dataset
    throws exactly when the generator returned no ball, no gift or no
    light; in particular for a requested count of zero. *)
Theorem fresh_mount_needs_every_category (rs : nat -> R) (count nb ng nl : nat) :
  unitDraws rs ->
  let data := generateFrom rs count in
  (useLayoutEffect (freshRefs nb ng nl) data = TypeError <->
   ballsData data = [] \/ giftsData data = [] \/ lightsData data = []) /\
  useLayoutEffect (freshRefs nb ng nl) (generateFrom rs 0) = TypeError.
Proof.
  intros Hrs. cbv zeta. split.
  - destruct (GeneratorShape.generated_colored rs count Hrs) as (Hb & Hg & Hl).
    rewrite useLayoutEffect_fails_groups. unfold freshRefs.
    cbn [ballsColors giftsColors lightsColors].
    rewrite (colorGroup_fails_iff _ _ Hb), (colorGroup_fails_iff _ _ Hg),
            (colorGroup_fails_iff _ _ Hl).
    cbn [emptyFresh instanceColor]. tauto.
  - reflexivity.
Qed.

Lemma fresh_mount_needs_every_category_witness :
  useLayoutEffect (freshRefs 0 0 0) (generateFrom halves 0) = TypeError.
Proof.
  apply (proj2 (fresh_mount_needs_every_category halves 0 0 0 0
                  ltac:(intros j; unfold halves; lra))).
Defined.

End ColorsSpec.
